(** * Success evaluation of the "put X on Y" tabletop tasks

    A shallow embedding of [mani_skill2/envs/custom_scenes/put_on_in_scene.py]:
    the per-step evaluator [PutOnInSceneEnv.evaluate], its episode statistics
    and grasp counter, and the placement grid selection of
    [PutOnBridgeInSceneEnv.reset].

    Numbers.  The simulator hands the evaluator floating-point arrays; here a
    coordinate is a real number and [np.linalg.norm] is the exact Euclidean
    norm, so every comparison below is the comparison the source writes,
    taken on exact values.  Rounding is not modelled.  The grasp counter and
    the episode id are Python integers and are modelled in [Z]. *)

From Stdlib Require Import Reals Lra Lia ZArith Bool List String.
From Stdlib Require Import Permutation.
Import ListNotations.

Open Scope R_scope.

(** ** Comparisons and vectors *)

Module Num.

(** The three comparisons the evaluator uses, as booleans. *)
Definition gtb (x y : R) : bool := if Rlt_dec y x then true else false.
Definition ltb (x y : R) : bool := if Rlt_dec x y then true else false.
Definition leb (x y : R) : bool := if Rle_dec x y then true else false.

(** A position, an impulse or a bounding-box size: a numpy array of shape
    [(3,)].  [v[:2]] is [xy v], [v[2]] is [vz v]. *)
Record vec3 : Type := Vec3 { vx : R; vy : R; vz : R }.

Definition vec2 : Type := (R * R)%type.

Definition xy (v : vec3) : vec2 := (vx v, vy v).

Definition zero3 : vec3 := Vec3 0 0 0.

Definition add3 (a b : vec3) : vec3 :=
  Vec3 (vx a + vx b) (vy a + vy b) (vz a + vz b).

Definition sub3 (a b : vec3) : vec3 :=
  Vec3 (vx a - vx b) (vy a - vy b) (vz a - vz b).

Definition sub2 (a b : vec2) : vec2 := (fst a - fst b, snd a - snd b).

(** [v / 2], element-wise. *)
Definition half3 (v : vec3) : vec3 := Vec3 (vx v / 2) (vy v / 2) (vz v / 2).

(** [np.linalg.norm] of a vector of two and of three components. *)
Definition norm2 (v : vec2) : R := sqrt (fst v * fst v + snd v * snd v).
Definition norm3 (v : vec3) : R :=
  sqrt (vx v * vx v + vy v * vy v + vz v * vz v).

(** [np.sum(vs, axis=0)]: the component-wise sum of a list of vectors.  On the
    empty list numpy returns the scalar [0.0], whose norm is [0.0], as is the
    norm of [zero3]. *)
Definition sum3 (vs : list vec3) : vec3 := fold_left add3 vs zero3.

End Num.

Import Num.


(** ** [PutOnInSceneEnv] *)

Module PutOnInSceneEnv.

(** An actor of the scene as the evaluator reads it: [obj.name] and
    [obj.pose.p]. *)
Record Actor : Type := mkActor { name : string; pose_p : vec3 }.

(** A contact record of [self._scene.get_contacts()]: the names of its two
    actors and the impulse of each contact point. *)
Record Contact : Type := mkContact {
  actor0 : string;
  actor1 : string;
  points : list vec3
}.

(** [self.episode_stats], an [OrderedDict] with five fixed keys. *)
Record EpisodeStats : Type := mkStats {
  stats_moved_correct_obj : bool;
  stats_moved_wrong_obj : bool;
  stats_is_src_obj_grasped : bool;
  stats_consecutive_grasp : bool;
  stats_src_on_target : bool
}.

(** What [evaluate] reads from the simulator and from the attributes that the
    parent classes set at episode start.  [check_grasp] is the answer of
    [self.agent.check_grasp(self.episode_source_obj)], [robot_link_names] the
    names of [self.agent.robot.get_links()]. *)
Record Scene : Type := mkScene {
  episode_objs : list Actor;
  episode_obj_xyzs_after_settle : list vec3;
  episode_source_obj : Actor;
  episode_target_obj : Actor;
  episode_source_obj_xyz_after_settle : vec3;
  source_obj_pose : vec3;
  target_obj_pose : vec3;
  episode_source_obj_bbox_world : vec3;
  episode_target_obj_bbox_world : vec3;
  check_grasp : bool;
  get_contacts : list Contact;
  robot_link_names : list string
}.

(** The two attributes of [self] that [reset] and [evaluate] write. *)
Record Self : Type := mkSelf {
  consecutive_grasp : Z;
  episode_stats : EpisodeStats
}.

(** The dictionary [evaluate] returns.  Its [episode_stats] entry is the
    environment's own dictionary; the record holds its contents at the time
    of the return. *)
Record Result : Type := mkResult {
  ret_moved_correct_obj : bool;
  ret_moved_wrong_obj : bool;
  ret_is_src_obj_grasped : bool;
  ret_consecutive_grasp : bool;
  ret_src_on_target : bool;
  ret_episode_stats : EpisodeStats;
  ret_success : bool
}.

(** *** Episode start *)

Definition _initialize_episode_stats (self : Self) : Self :=
  mkSelf (consecutive_grasp self) (mkStats false false false false false).

(** Modelled from the spec: [MoveNearInSceneEnv.reset], the parent's reset
    reached through [super().reset], is not among the sources.  The spec has
    the statistics "created at episode reset" and [reset_episode()]
    "reinitializes statistics and counter": the parent's reset calls the
    [_initialize_episode_stats] hook, which this class overrides.  Loading
    the scene is outside the model. *)
Definition super_reset (self : Self) : Self := _initialize_episode_stats self.

Definition reset (self : Self) : Self :=
  super_reset (mkSelf 0%Z (episode_stats self)).

(** *** Whether the correct object moved *)

Definition xy_move_dist (xyz_after_settle p : vec3) : R :=
  norm2 (sub2 (xy xyz_after_settle) (xy p)).

Definition source_obj_xy_move_dist (s : Scene) : R :=
  xy_move_dist (episode_source_obj_xyz_after_settle s) (source_obj_pose s).

(** The loop over [zip(self.episode_objs, self.episode_obj_xyzs_after_settle)]
    that skips every object carrying the source object's name. *)
Fixpoint other_dists (src_name : string) (l : list (Actor * vec3)) : list R :=
  match l with
  | [] => []
  | (obj, obj_xyz_after_settle) :: rest =>
      if String.eqb (name obj) src_name then other_dists src_name rest
      else xy_move_dist obj_xyz_after_settle (pose_p obj)
             :: other_dists src_name rest
  end.

Definition other_obj_xy_move_dist (s : Scene) : list R :=
  other_dists (name (episode_source_obj s))
    (combine (episode_objs s) (episode_obj_xyzs_after_settle s)).

Definition moved_correct_obj (s : Scene) : bool :=
  gtb (source_obj_xy_move_dist s) 0.03
  && forallb (fun x => ltb x (source_obj_xy_move_dist s))
       (other_obj_xy_move_dist s).

Definition moved_wrong_obj (s : Scene) : bool :=
  existsb (fun x => gtb x 0.03) (other_obj_xy_move_dist s)
  && existsb (fun x => gtb x (source_obj_xy_move_dist s))
       (other_obj_xy_move_dist s).

(** *** Whether the source object is grasped *)

Definition grasp_count (is_src_obj_grasped : bool) (count : Z) : Z :=
  if is_src_obj_grasped then (count + 1)%Z else 0%Z.

Definition grasp_flag (count : Z) : bool := (5 <=? count)%Z.

(** The counter after a sequence of per-step grasp detections. *)
Definition grasp_run (gs : list bool) (count : Z) : Z :=
  fold_left (fun c g => grasp_count g c) gs count.

(** *** Whether the source is on the target, from the bounding boxes *)

Definition tgt_obj_half_length_bbox (s : Scene) : vec3 :=
  half3 (episode_target_obj_bbox_world s).

Definition src_obj_half_length_bbox (s : Scene) : vec3 :=
  half3 (episode_source_obj_bbox_world s).

Definition offset (s : Scene) : vec3 :=
  sub3 (source_obj_pose s) (target_obj_pose s).

Definition xy_flag (s : Scene) : bool :=
  leb (norm2 (xy (offset s)))
      (norm2 (xy (tgt_obj_half_length_bbox s)) - 0.005).

Definition z_flag (s : Scene) : bool :=
  gtb (vz (offset s)) 0
  && leb (vz (offset s) - vz (tgt_obj_half_length_bbox s)
                        - vz (src_obj_half_length_bbox s)) 0.02.

Definition bbox_on_target (s : Scene) : bool := xy_flag s && z_flag s.

(** *** Whether the source is on the target, from the contacts *)

Definition ignore_actor_names (s : Scene) : list string :=
  [name (episode_target_obj s)] ++ robot_link_names s.

Definition name_in (n : string) (names : list string) : bool :=
  existsb (String.eqb n) names.

Definition other_obj_contact_actor_name (src_name : string) (c : Contact)
  : option string :=
  if String.eqb (actor0 c) src_name then Some (actor1 c)
  else if String.eqb (actor1 c) src_name then Some (actor0 c)
  else None.

Definition contact_impulse (c : Contact) : vec3 := sum3 (points c).

(** The test in the body of the loop that sets [flag = False]. *)
Definition vetoes (src_name : string) (ignore : list string) (c : Contact)
  : bool :=
  match other_obj_contact_actor_name src_name c with
  | None => false
  | Some other =>
      negb (name_in other ignore) && gtb (norm3 (contact_impulse c)) 1e-6
  end.

(** The [for contact in contacts] loop with its [break]: the value of [flag]
    when the loop is left, and the contacts the loop never reached. *)
Fixpoint contact_loop (src_name : string) (ignore : list string)
    (contacts : list Contact) : bool * list Contact :=
  match contacts with
  | [] => (true, [])
  | c :: rest =>
      if vetoes src_name ignore c then (false, rest)
      else contact_loop src_name ignore rest
  end.

Definition contact_flag (s : Scene) : bool :=
  fst (contact_loop (name (episode_source_obj s)) (ignore_actor_names s)
         (get_contacts s)).

(** *** The evaluator *)

Definition evaluate (s : Scene) (self : Self) : Result * Self :=
  let moved_correct := moved_correct_obj s in
  let moved_wrong := moved_wrong_obj s in
  let is_src_obj_grasped := check_grasp s in
  let count := grasp_count is_src_obj_grasped (consecutive_grasp self) in
  let consecutive := grasp_flag count in
  let src_on_target := bbox_on_target s in
  let src_on_target := src_on_target && contact_flag s in
  let success := src_on_target in
  let old := episode_stats self in
  let stats :=
    mkStats moved_correct moved_wrong
      (stats_is_src_obj_grasped old || is_src_obj_grasped)
      (stats_consecutive_grasp old || consecutive)
      src_on_target in
  (mkResult moved_correct moved_wrong is_src_obj_grasped consecutive
     src_on_target stats success,
   mkSelf count stats).

(** The environment after [evaluate] has been called once on each scene of a
    sequence, in order, within one episode. *)
Definition run (scenes : list Scene) (self : Self) : Self :=
  fold_left (fun st s => snd (evaluate s st)) scenes self.

End PutOnInSceneEnv.

(** ** [PutOnBridgeInSceneEnv] *)

Module PutOnBridgeInSceneEnv.

(** The exceptions integer arithmetic and list indexing can raise. *)
Inductive exn : Type := ZeroDivisionError | IndexError.

Definition py (A : Type) : Type := (exn + A)%type.

Definition ret {A : Type} (a : A) : py A := inr a.

Definition bind {A B : Type} (m : py A) (k : A -> py B) : py B :=
  match m with
  | inl e => inl e
  | inr a => k a
  end.

Notation "x <- m ;; k" := (bind m (fun x => k))
  (at level 61, m at next level, right associativity).

(** [a % b] and [a // b] on Python integers: floored, the remainder takes the
    sign of the divisor, and a zero divisor raises. *)
Definition py_mod (a b : Z) : py Z :=
  if (b =? 0)%Z then inl ZeroDivisionError else ret (a mod b)%Z.

Definition py_floordiv (a b : Z) : py Z :=
  if (b =? 0)%Z then inl ZeroDivisionError else ret (a / b)%Z.

Definition len {A : Type} (l : list A) : Z := Z.of_nat (List.length l).

(** [l[i]]: a negative index counts from the end, an index outside the list
    raises. *)
Definition py_index {A : Type} (l : list A) (i : Z) : py A :=
  let j := if (i <? 0)%Z then (i + len l)%Z else i in
  if (j <? 0)%Z then inl IndexError
  else match nth_error l (Z.to_nat j) with
       | Some a => ret a
       | None => inl IndexError
       end.

Section Reset.

(** An entry of [xy_configs] (the initial xy positions of the two objects) and
    an entry of [quat_configs] (their initial rotations). *)
Variables XY Quat : Type.

(** The [obj_init_options] dictionary, by the keys [reset] reads or writes. *)
Record ObjInitOptions : Type := mkObjInit {
  episode_id : option Z;
  source_obj_id : option Z;
  target_obj_id : option Z;
  init_xys : option XY;
  init_rot_quats : option Quat
}.

(** The [options] dictionary, by the keys [reset] reads or writes. *)
Record Options : Type := mkOptions {
  model_ids : option (list string);
  obj_init_options : option ObjInitOptions
}.

Definition empty_obj_init_options : ObjInitOptions :=
  mkObjInit None None None None None.

Definition empty_options : Options := mkOptions None None.

(** [options.pop("obj_init_options", {})] after [options = dict()] for a
    missing [options]. *)
Definition pop_obj_init_options (options : option Options) : ObjInitOptions :=
  match options with
  | None => empty_obj_init_options
  | Some o =>
      match obj_init_options o with
      | None => empty_obj_init_options
      | Some oio => oio
      end
  end.

(** [obj_init_options.get("episode_id", 0)]. *)
Definition get_episode_id (oio : ObjInitOptions) : Z :=
  match episode_id oio with
  | None => 0%Z
  | Some e => e
  end.

Definition select_xy_config (xy_configs : list XY) (quat_configs : list Quat)
    (e : Z) : py XY :=
  r <- py_mod e (len xy_configs * len quat_configs) ;;
  i <- py_floordiv r (len quat_configs) ;;
  py_index xy_configs i.

Definition select_quat_config (quat_configs : list Quat) (e : Z) : py Quat :=
  i <- py_mod e (len quat_configs) ;;
  py_index quat_configs i.

(** The body of [reset] up to the call of [super().reset]: the [options] that
    call receives. *)
Definition reset_options (source_obj_name target_obj_name : string)
    (xy_configs : list XY) (quat_configs : list Quat)
    (options : option Options) : py Options :=
  let oio := pop_obj_init_options options in
  let e := get_episode_id oio in
  xy_config <- select_xy_config xy_configs quat_configs e ;;
  quat_config <- select_quat_config quat_configs e ;;
  ret (mkOptions (Some [source_obj_name; target_obj_name])
         (Some (mkObjInit (episode_id oio) (Some 0%Z) (Some 1%Z)
                  (Some xy_config) (Some quat_config)))).

(** The episode id a call of [reset] works with. *)
Definition episode_id_of (options : option Options) : Z :=
  get_episode_id (pop_obj_init_options options).

End Reset.

Arguments mkObjInit {XY Quat}.
Arguments mkOptions {XY Quat}.
Arguments episode_id {XY Quat}.
Arguments init_xys {XY Quat}.
Arguments init_rot_quats {XY Quat}.
Arguments obj_init_options {XY Quat}.
Arguments model_ids {XY Quat}.
Arguments pop_obj_init_options {XY Quat}.
Arguments get_episode_id {XY Quat}.
Arguments episode_id_of {XY Quat}.
Arguments select_xy_config {XY Quat}.
Arguments select_quat_config {Quat}.
Arguments reset_options {XY Quat}.

(** The tables of [PutSpoonOnTableClothInScene]: the four corners of the grid
    are numbered as in [grid_pos], an xy configuration is an ordered pair of
    two different corners (source, target), and the two rotation
    configurations are named by the yaw of the source object. *)
Definition spoon_xy_configs : list (nat * nat) :=
  flat_map (fun i =>
    flat_map (fun j => if Nat.eqb i j then [] else [(i, j)]) (seq 0 4))
    (seq 0 4).

Inductive yaw : Type := Yaw0 | YawHalfPi.

Definition spoon_quat_configs : list yaw := [Yaw0; YawHalfPi].

End PutOnBridgeInSceneEnv.

(** ** Concrete scenes *)

Module Tabletop.

Import PutOnInSceneEnv.

Local Open Scope string_scope.

(** A spoon (the source) and a table cloth (the target).  After settling the
    spoon rests at the origin and the cloth at [(0.2, 0, 0)]; the cloth is
    [0.2 x 0.2 x 0.02], the spoon [0.1 x 0.02 x 0.02].  The scene is given by
    the current positions of the two objects, the grasp detection and the
    contacts of the step. *)
Definition spoon_settle : vec3 := Vec3 0 0 0.
Definition cloth_settle : vec3 := Vec3 0.2 0 0.

Definition scene_with_target_bbox (target_bbox spoon_p cloth_p : vec3)
    (grasped : bool) (contacts : list Contact) : Scene :=
  mkScene
    [mkActor "spoon" spoon_p; mkActor "cloth" cloth_p]
    [spoon_settle; cloth_settle]
    (mkActor "spoon" spoon_p)
    (mkActor "cloth" cloth_p)
    spoon_settle
    spoon_p
    cloth_p
    (Vec3 0.1 0.02 0.02)
    target_bbox
    grasped
    contacts
    ["gripper_left"; "gripper_right"].

Definition scene : vec3 -> vec3 -> bool -> list Contact -> Scene :=
  scene_with_target_bbox (Vec3 0.2 0.2 0.02).

(** Nothing has moved yet. *)
Definition at_rest : Scene := scene spoon_settle cloth_settle false [].

(** The spoon has been pushed 5 cm along x, the cloth has not moved. *)
Definition spoon_pushed : Scene := scene (Vec3 0.05 0 0) cloth_settle false [].

(** The cloth has been dragged 6 cm along x, the spoon has not moved. *)
Definition cloth_dragged : Scene :=
  scene spoon_settle (Vec3 0.26 0 0) false [].

(** The spoon lies on the cloth, 3 cm above its centre, touching only the
    cloth. *)
Definition spoon_on_cloth : Scene :=
  scene (Vec3 0.2 0 0.03) cloth_settle false
    [mkContact "cloth" "spoon" [Vec3 0 0 0.5]].

(** The spoon is held 3 cm above the centre of the cloth, touching only the
    gripper. *)
Definition spoon_held_over_cloth : Scene :=
  scene (Vec3 0.2 0 0.03) cloth_settle true
    [mkContact "spoon" "gripper_left" [Vec3 0 0.25 0];
     mkContact "gripper_right" "spoon" [Vec3 0 (-0.25) 0]].

(** The same spoon 5 cm and 4 cm above the centre of a target 3 cm thick. *)
Definition spoon_5cm_over_thick_target : Scene :=
  scene_with_target_bbox (Vec3 0.2 0.2 0.03) (Vec3 0.2 0 0.05) cloth_settle
    false [].

Definition spoon_4cm_over_thick_target : Scene :=
  scene_with_target_bbox (Vec3 0.2 0.2 0.03) (Vec3 0.2 0 0.04) cloth_settle
    false [].

(** The spoon 3 cm above the centre of a target that is 4 mm wide and 2 cm
    thick, touching nothing. *)
Definition spoon_over_pin : Scene :=
  scene_with_target_bbox (Vec3 0.004 0.004 0.02) (Vec3 0.2 0 0.03)
    cloth_settle false [].

(** A contact between the spoon and the table with one point of impulse
    [m] along z. *)
Definition table_contact (m : R) : Contact :=
  mkContact "spoon" "table" [Vec3 0 0 m].

(** A contact between the left gripper finger and the spoon. *)
Definition gripper_contact : Contact :=
  mkContact "gripper_left" "spoon" [Vec3 0 0 0.3].

(** The spoon, held by the gripper above the cloth, has two contacts with
    the table. *)
Definition spoon_dragged_on_table : Scene :=
  scene (Vec3 0.2 0 0.03) cloth_settle true
    [gripper_contact; table_contact 0.5; table_contact 0.7].

(** The spoon above the cloth with a contact with the table whose impulse is
    exactly at the threshold. *)
Definition spoon_grazing_table : Scene :=
  scene (Vec3 0.2 0 0.03) cloth_settle false [table_contact 1e-6].

(** A fresh environment before its first reset. *)
Definition fresh : Self := mkSelf 0%Z (mkStats false false false false false).

(** A carrot (the source) and a plate (the target) away from the origin.
    After settling the carrot rests at [(0.3, -0.2, 0.1)] and the plate at
    [(0.5, 0.1, 0.1)], where it stays; the plate is [0.1 x 0.1 x 0.03], the
    carrot [0.1 x 0.04 x 0.02].  The scene is given by the carrot's current
    position and the contacts of the step. *)
Definition carrot_settle : vec3 := Vec3 0.3 (-0.2) 0.1.
Definition plate_settle : vec3 := Vec3 0.5 0.1 0.1.

Definition carrot_scene (carrot_p : vec3) (contacts : list Contact) : Scene :=
  mkScene
    [mkActor "carrot" carrot_p; mkActor "plate" plate_settle]
    [carrot_settle; plate_settle]
    (mkActor "carrot" carrot_p)
    (mkActor "plate" plate_settle)
    carrot_settle
    carrot_p
    plate_settle
    (Vec3 0.1 0.04 0.02)
    (Vec3 0.1 0.1 0.03)
    false
    contacts
    ["gripper_left"; "gripper_right"].

(** The carrot has been pushed by [(0.03, 0.04)], 5 cm in all. *)
Definition carrot_pushed : Scene :=
  carrot_scene (Vec3 0.33 (-0.16) 0.1) [].

(** The carrot is [(0.03, 0.04)] off the plate's centre and 4 cm above it. *)
Definition carrot_on_plate : Scene :=
  carrot_scene (Vec3 0.53 0.14 0.14) [].

(** The carrot is [(0.06, 0.08)] off the plate's centre and 5 cm above it. *)
Definition carrot_off_plate : Scene :=
  carrot_scene (Vec3 0.56 0.18 0.15) [].

(** The carrot is centred 1 cm below the plate's centre. *)
Definition carrot_below_plate : Scene :=
  carrot_scene (Vec3 0.5 0.1 0.09) [].

(** A contact between the carrot and the table with two points. *)
Definition two_point_contact (i1 i2 : vec3) : Contact :=
  mkContact "table" "carrot" [i1; i2].

(** Two impulses that add up to [(6e-7, 8e-7, 0)], of norm [1e-6]. *)
Definition carrot_grazing_table : Scene :=
  carrot_scene (Vec3 0.53 0.14 0.14)
    [two_point_contact (Vec3 3e-7 0 0) (Vec3 3e-7 8e-7 0)].

(** Two impulses, each of norm [6e-7], that add up to one of norm
    [1.2e-6]. *)
Definition carrot_pressing_table : Scene :=
  carrot_scene (Vec3 0.53 0.14 0.14)
    [two_point_contact (Vec3 0 0 6e-7) (Vec3 0 0 6e-7)].

(** Two large impulses that cancel. *)
Definition carrot_balanced_on_table : Scene :=
  carrot_scene (Vec3 0.53 0.14 0.14)
    [two_point_contact (Vec3 0 0.5 0) (Vec3 0 (-0.5) 0)].

End Tabletop.

(** ** [PutOnInSceneEnv._set_model] *)

Module SetModel.

Inductive exn : Type := ValueError | ZeroDivisionError.

(** An entry of the [model_ids] list handed to the parent: a model name, or
    the integer the method computes for the target. *)
Inductive model_ref : Type :=
  | Name (s : string)
  | Index (i : Z).

(** [l.index(x)]: the position of the first occurrence, [None] standing for
    the [ValueError] of a missing element. *)
Fixpoint index (l : list string) (x : string) : option Z :=
  match l with
  | [] => None
  | y :: rest =>
      if String.eqb y x then Some 0%Z
      else option_map Z.succ (index rest x)
  end.

(** The [model_ids] that [_set_model] passes to [super()._set_model].
    [self_model_ids] is [self.model_ids] and [src_model_id] the answer of
    [random_choice(self.model_ids, self._episode_rng)]. *)
Definition _set_model (self_model_ids : list string) (src_model_id : string)
    (model_ids : option (list model_ref)) : exn + list model_ref :=
  match model_ids with
  | Some ids => inr ids
  | None =>
      match index self_model_ids src_model_id with
      | None => inl ValueError
      | Some i =>
          let n := Z.of_nat (List.length self_model_ids) in
          if (n =? 0)%Z then inl ZeroDivisionError
          else inr [Name src_model_id; Index ((i + 1) mod n)%Z]
      end
  end.

End SetModel.

(** ** [PutOnBridgeInSceneEnv._load_model] *)

Module LoadModel.

Inductive exn : Type := KeyError.

(** An entry of [self.model_db], by the one key [_load_model] reads. *)
Record ModelInfo : Type := mkInfo { info_density : option R }.

(** [self.model_db[model_id]]. *)
Fixpoint lookup (model_db : list (string * ModelInfo)) (model_id : string)
  : option ModelInfo :=
  match model_db with
  | [] => None
  | (k, v) :: rest =>
      if String.eqb k model_id then Some v else lookup rest model_id
  end.

(** [info.get("density", 1000)]. *)
Definition get_density (info : ModelInfo) : R :=
  match info_density info with
  | Some d => d
  | None => 1000
  end.

(** An actor as [_build_actor_helper] is asked to build it, with the name
    [_load_model] gives it. *)
Record Built : Type := mkBuilt {
  built_name : string;
  built_model_id : string;
  built_scale : R;
  built_density : R
}.

(** The loop over [zip(self.episode_model_ids, self.episode_model_scales)]:
    the outcome and [self.episode_objs] when the loop is left. *)
Fixpoint load_loop (model_db : list (string * ModelInfo))
    (todo : list (string * R)) (episode_objs : list Built)
  : (exn + unit) * list Built :=
  match todo with
  | [] => (inr tt, episode_objs)
  | (model_id, model_scale) :: rest =>
      match lookup model_db model_id with
      | None => (inl KeyError, episode_objs)
      | Some info =>
          load_loop model_db rest
            (episode_objs
               ++ [mkBuilt model_id model_id model_scale (get_density info)])
      end
  end.

(** [_load_model]: [self.episode_objs] is emptied first, whatever it held. *)
Definition _load_model (model_db : list (string * ModelInfo))
    (episode_model_ids : list string) (episode_model_scales : list R)
    (episode_objs : list Built) : (exn + unit) * list Built :=
  load_loop model_db (combine episode_model_ids episode_model_scales) [].

End LoadModel.

(** ** The registered environments *)

Module Registered.

Definition quat : Type := (R * R * R * R)%type.

Definition identity_quat : quat := (1, 0, 0, 0).

(** [(np.array([[0, 0], [0, 1], [1, 0], [1, 1]]) * 2 - 1) * [hx, hy]
    + xy_center]. *)
Definition grid_pos (xy_center : vec2) (half_edge_length_x half_edge_length_y : R)
  : list vec2 :=
  map (fun c => ((fst c * 2 - 1) * half_edge_length_x + fst xy_center,
                 (snd c * 2 - 1) * half_edge_length_y + snd xy_center))
      [(0, 0); (0, 1); (1, 0); (1, 1)].

Definition enumerate {A : Type} (l : list A) : list (nat * A) :=
  combine (seq 0 (List.length l)) l.

(** The double loop over [enumerate(grid_pos)] that keeps the pairs with
    [i != j]: an xy configuration is the source's and the target's
    position. *)
Definition grid_pairs (grid : list vec2) : list (vec2 * vec2) :=
  flat_map (fun ig1 =>
    flat_map (fun jg2 =>
      if negb (Nat.eqb (fst ig1) (fst jg2)) then [(snd ig1, snd jg2)] else [])
      (enumerate grid))
    (enumerate grid).

(** What a constructor hands to [PutOnBridgeInSceneEnv.__init__], and the
    answer of the class's [get_language_instruction]. *)
Record BridgeEnv : Type := mkEnv {
  source_obj_name : string;
  target_obj_name : string;
  xy_configs : list (vec2 * vec2);
  quat_configs : list (quat * quat);
  language_instruction : string
}.

Section Constructors.

(** [transforms3d.euler.euler2quat], a library function. *)
Variable euler2quat : R -> R -> R -> quat.

Definition xy_center : vec2 := (-0.16, 0).

Definition PutSpoonOnTableClothInScene
    (source_obj_name target_obj_name : string) : BridgeEnv :=
  mkEnv source_obj_name target_obj_name
    (grid_pairs (grid_pos xy_center 0.075 0.075))
    [(identity_quat, identity_quat);
     (euler2quat 0 0 (PI / 2), identity_quat)]
    "put the spoon on the towel".

Definition PutSpoonOnTableClothBakedTexInScene : BridgeEnv :=
  PutSpoonOnTableClothInScene "baked_bridge_spoon_generated_modified"
    "baked_table_cloth_generated".

Definition PutCarrotOnPlateInScene : BridgeEnv :=
  mkEnv "bridge_carrot_generated" "bridge_plate_objaverse"
    (grid_pairs (grid_pos xy_center 0.075 0.075))
    [(euler2quat 0 0 PI, identity_quat);
     (euler2quat 0 0 (- PI / 2), identity_quat)]
    "put carrot on plate".

Definition StackGreenCubeOnYellowCubeInScene
    (source_obj_name target_obj_name : string) : BridgeEnv :=
  mkEnv source_obj_name target_obj_name
    (flat_map (fun h => grid_pairs (grid_pos xy_center (fst h) (snd h)))
       (combine [0.05; 0.1] [0.05; 0.1]))
    [(identity_quat, identity_quat)]
    "stack the green block on the yellow block".

Definition StackGreenCubeOnYellowCubeBakedTexInScene : BridgeEnv :=
  StackGreenCubeOnYellowCubeInScene "baked_green_cube_3cm"
    "baked_yellow_cube_3cm".

(** The [register_env] decorators: the registered id, [max_episode_steps] and
    the class with its default arguments. *)
Definition registry : list (string * Z * BridgeEnv) :=
  [("PutSpoonOnTableClothInScene-v0", 200%Z,
    PutSpoonOnTableClothInScene "bridge_spoon_generated_modified"
      "table_cloth_generated");
   ("PutSpoonOnTableClothBakedTexInScene-v0", 200%Z,
    PutSpoonOnTableClothBakedTexInScene);
   ("PutCarrotOnPlateInScene-v0", 200%Z, PutCarrotOnPlateInScene);
   ("StackGreenCubeOnYellowCubeInScene-v0", 200%Z,
    StackGreenCubeOnYellowCubeInScene "green_cube_3cm" "yellow_cube_3cm");
   ("StackGreenCubeOnYellowCubeBakedTexInScene-v0", 200%Z,
    StackGreenCubeOnYellowCubeBakedTexInScene)]%string.

End Constructors.

End Registered.

(** ** Transformations of the evaluator's input *)

Module SceneOps.

Import PutOnInSceneEnv.

Definition translate_actor (t : vec3) (a : Actor) : Actor :=
  mkActor (name a) (add3 (pose_p a) t).

(** The same scene with every position, settled and current, moved by [t]. *)
Definition translate (t : vec3) (s : Scene) : Scene :=
  mkScene
    (map (translate_actor t) (episode_objs s))
    (map (fun p => add3 p t) (episode_obj_xyzs_after_settle s))
    (translate_actor t (episode_source_obj s))
    (translate_actor t (episode_target_obj s))
    (add3 (episode_source_obj_xyz_after_settle s) t)
    (add3 (source_obj_pose s) t)
    (add3 (target_obj_pose s) t)
    (episode_source_obj_bbox_world s)
    (episode_target_obj_bbox_world s)
    (check_grasp s)
    (get_contacts s)
    (robot_link_names s).

(** The same contact reported with its two actors in the other order. *)
Definition swap_actors (c : Contact) : Contact :=
  mkContact (actor1 c) (actor0 c) (points c).

(** The same scene with another list of contacts. *)
Definition with_contacts (contacts : list Contact) (s : Scene) : Scene :=
  mkScene (episode_objs s) (episode_obj_xyzs_after_settle s)
    (episode_source_obj s) (episode_target_obj s)
    (episode_source_obj_xyz_after_settle s)
    (source_obj_pose s) (target_obj_pose s)
    (episode_source_obj_bbox_world s) (episode_target_obj_bbox_world s)
    (check_grasp s) contacts (robot_link_names s).

(** The number of [true] at the head of a list. *)
Fixpoint leading_trues (gs : list bool) : nat :=
  match gs with
  | true :: rest => S (leading_trues rest)
  | _ => 0
  end.

(** The number of grasped steps at the end of a sequence of steps. *)
Definition trailing_grasps (gs : list bool) : nat := leading_trues (rev gs).

End SceneOps.

(** ** Comparisons and norms *)

Lemma gtb_true (x y : R) : gtb x y = true <-> y < x.
Proof. unfold gtb. destruct (Rlt_dec y x); split; intros; (lra || congruence). Qed.

Lemma gtb_false (x y : R) : gtb x y = false <-> x <= y.
Proof. unfold gtb. destruct (Rlt_dec y x); split; intros; (lra || congruence). Qed.

Lemma ltb_true (x y : R) : ltb x y = true <-> x < y.
Proof. unfold ltb. destruct (Rlt_dec x y); split; intros; (lra || congruence). Qed.

Lemma ltb_false (x y : R) : ltb x y = false <-> y <= x.
Proof. unfold ltb. destruct (Rlt_dec x y); split; intros; (lra || congruence). Qed.

Lemma leb_true (x y : R) : leb x y = true <-> x <= y.
Proof. unfold leb. destruct (Rle_dec x y); split; intros; (lra || congruence). Qed.

Lemma leb_false (x y : R) : leb x y = false <-> y < x.
Proof. unfold leb. destruct (Rle_dec x y); split; intros; (lra || congruence). Qed.

Lemma norm2_nonneg (v : vec2) : 0 <= norm2 v.
Proof. apply sqrt_pos. Qed.

Lemma norm3_nonneg (v : vec3) : 0 <= norm3 v.
Proof. apply sqrt_pos. Qed.

Lemma norm2_axis_x (a : R) : 0 <= a -> norm2 (a, 0) = a.
Proof.
  intros Ha. unfold norm2; simpl.
  replace (a * a + 0 * 0) with (a * a) by lra.
  now apply sqrt_square.
Qed.

Lemma norm2_zero : norm2 (0, 0) = 0.
Proof. now apply norm2_axis_x; lra. Qed.

Lemma norm2_sub_self (p : vec2) : norm2 (sub2 p p) = 0.
Proof.
  destruct p as [a b]. unfold sub2; simpl.
  replace (a - a) with 0 by lra. replace (b - b) with 0 by lra.
  apply norm2_zero.
Qed.

Lemma norm3_axis_x (a : R) : 0 <= a -> norm3 (Vec3 a 0 0) = a.
Proof.
  intros Ha. unfold norm3; simpl.
  replace (a * a + 0 * 0 + 0 * 0) with (a * a) by lra.
  now apply sqrt_square.
Qed.

Example decimal_check : gtb 0.05 0.03 = true /\ gtb 1e-6 1e-6 = false.
Proof. split; [apply gtb_true | apply gtb_false]; lra. Qed.

Lemma le_norm2 (a x y : R) : 0 <= a -> a * a <= x * x + y * y -> a <= norm2 (x, y).
Proof.
  intros Ha H. unfold norm2; simpl.
  rewrite <- (sqrt_square a) at 1 by exact Ha.
  now apply sqrt_le_1_alt.
Qed.

(** ** The grasp counter and the statistics *)

Import PutOnInSceneEnv.

Lemma grasp_run_app (gs hs : list bool) (c : Z) :
  grasp_run (gs ++ hs) c = grasp_run hs (grasp_run gs c).
Proof. unfold grasp_run. apply fold_left_app. Qed.

Lemma grasp_run_repeat_true (k : nat) (c : Z) :
  grasp_run (repeat true k) c = (c + Z.of_nat k)%Z.
Proof.
  revert c. induction k as [|k IH]; intros c.
  - simpl. lia.
  - cbn [repeat]. change (grasp_run (true :: repeat true k) c)
      with (grasp_run (repeat true k) (grasp_count true c)).
    rewrite IH. unfold grasp_count. lia.
Qed.

Lemma run_app (pre post : list Scene) (self : Self) :
  run (pre ++ post) self = run post (run pre self).
Proof. unfold run. apply fold_left_app. Qed.

Lemma run_cons (s : Scene) (rest : list Scene) (self : Self) :
  run (s :: rest) self = run rest (snd (evaluate s self)).
Proof. reflexivity. Qed.

Lemma run_counter (scenes : list Scene) (self : Self) :
  consecutive_grasp (run scenes self)
  = grasp_run (map check_grasp scenes) (consecutive_grasp self).
Proof.
  revert self. induction scenes as [|s rest IH]; intros self.
  - reflexivity.
  - rewrite run_cons, IH. reflexivity.
Qed.

Lemma run_grasped_stays (scenes : list Scene) (self : Self) :
  stats_is_src_obj_grasped (episode_stats self) = true ->
  stats_is_src_obj_grasped (episode_stats (run scenes self)) = true.
Proof.
  revert self. induction scenes as [|s rest IH]; intros self H.
  - exact H.
  - rewrite run_cons. apply IH. simpl. now rewrite H.
Qed.

Lemma run_consecutive_stays (scenes : list Scene) (self : Self) :
  stats_consecutive_grasp (episode_stats self) = true ->
  stats_consecutive_grasp (episode_stats (run scenes self)) = true.
Proof.
  revert self. induction scenes as [|s rest IH]; intros self H.
  - exact H.
  - rewrite run_cons. apply IH. simpl. now rewrite H.
Qed.

(** C6.  A grasped step adds one to the counter and any other step sets it to
    zero; after any sequence ending in a step without grasp the counter is
    zero, after [k] grasped steps from zero it is [k]; the flag is true
    exactly from five on; and this is the counter and the flag [evaluate]
    keeps and returns, starting from zero after [reset]. *)
Theorem grasp_counter_spec :
  (forall c : Z, grasp_count true c = (c + 1)%Z) /\
  (forall c : Z, grasp_count false c = 0%Z) /\
  (forall (gs : list bool) (c : Z), grasp_run (gs ++ [false]) c = 0%Z) /\
  (forall k : nat, grasp_run (repeat true k) 0 = Z.of_nat k) /\
  (forall c : Z, grasp_flag c = true <-> (5 <= c)%Z) /\
  (forall c : Z, (0 <= c <= 4)%Z -> grasp_flag c = false) /\
  (forall self : Self, consecutive_grasp (reset self) = 0%Z) /\
  (forall (s : Scene) (self : Self),
      consecutive_grasp (snd (evaluate s self))
      = grasp_count (check_grasp s) (consecutive_grasp self) /\
      ret_consecutive_grasp (fst (evaluate s self))
      = grasp_flag (consecutive_grasp (snd (evaluate s self)))) /\
  (forall (scenes : list Scene) (self : Self),
      consecutive_grasp (run scenes (reset self))
      = grasp_run (map check_grasp scenes) 0).
Proof.
  repeat split.
  - intros gs c. rewrite grasp_run_app. reflexivity.
  - intros k. rewrite grasp_run_repeat_true. lia.
  - unfold grasp_flag. intros H. now apply Z.leb_le.
  - unfold grasp_flag. intros H. now apply Z.leb_le.
  - intros c H. unfold grasp_flag. apply Z.leb_gt. lia.
  - intros scenes self. now rewrite run_counter.
Qed.

Lemma grasp_counter_spec_witness :
  grasp_flag 4 = false /\ grasp_flag 5 = true /\
  grasp_run [true; true; false; true; true; true] 0 = 3%Z.
Proof.
  destruct grasp_counter_spec as (_ & _ & _ & _ & Hflag & Hlow & _).
  split; [apply (Hlow 4%Z); lia|].
  split; [apply (proj2 (Hflag 5%Z)); lia|].
  reflexivity.
Defined.

(** C9.  [reset] leaves the counter at zero and the five statistics at
    false, whatever the environment held before. *)
Theorem reset_reinitializes :
  forall self : Self,
    reset self = mkSelf 0%Z (mkStats false false false false false).
Proof. intros self. reflexivity. Qed.

(** ** The displacement classifier *)

Lemma norm2_eq (a x y : R) : 0 <= a -> x * x + y * y = a * a -> norm2 (x, y) = a.
Proof.
  intros Ha H. unfold norm2; simpl. rewrite H. now apply sqrt_square.
Qed.

Lemma xy_move_dist_along_x (x0 y z0 x1 z1 a : R) :
  0 <= a -> (x0 - x1) * (x0 - x1) = a * a ->
  xy_move_dist (Vec3 x0 y z0) (Vec3 x1 y z1) = a.
Proof.
  intros Ha H. unfold xy_move_dist, sub2, xy; simpl.
  apply norm2_eq; [exact Ha | nra].
Qed.

Lemma In_other_dists (n : string) (l : list (Actor * vec3)) (d : R) :
  In d (other_dists n l) <->
  exists obj settle,
    In (obj, settle) l /\ name obj <> n /\ d = xy_move_dist settle (pose_p obj).
Proof.
  induction l as [|[obj settle] rest IH]; simpl.
  - split; [tauto | intros (o & st & [] & _)].
  - destruct (String.eqb_spec (name obj) n) as [E|E].
    + rewrite IH. split.
      * intros (o & st & Hin & Hn & Hd). exists o, st. auto.
      * intros (o & st & [Heq|Hin] & Hn & Hd).
        -- injection Heq as -> ->. contradiction.
        -- exists o, st. auto.
    + simpl. rewrite IH. split.
      * intros [<-|(o & st & Hin & Hn & Hd)].
        -- exists obj, settle. auto.
        -- exists o, st. auto.
      * intros (o & st & [Heq|Hin] & Hn & Hd).
        -- injection Heq as -> ->. left. now symmetry.
        -- right. exists o, st. auto.
Qed.

Lemma moved_correct_obj_iff (s : Scene) :
  moved_correct_obj s = true <->
  0.03 < source_obj_xy_move_dist s /\
  Forall (fun x => x < source_obj_xy_move_dist s) (other_obj_xy_move_dist s).
Proof.
  unfold moved_correct_obj.
  rewrite andb_true_iff, gtb_true, forallb_forall, Forall_forall.
  split; intros [H1 H2]; (split; [exact H1|]); intros x Hx.
  - apply ltb_true. now apply H2.
  - apply ltb_true. now apply H2.
Qed.

Lemma moved_wrong_obj_iff (s : Scene) :
  moved_wrong_obj s = true <->
  Exists (fun x => 0.03 < x) (other_obj_xy_move_dist s) /\
  Exists (fun x => source_obj_xy_move_dist s < x) (other_obj_xy_move_dist s).
Proof.
  unfold moved_wrong_obj.
  rewrite andb_true_iff, !existsb_exists, !Exists_exists.
  split; intros [(x & Hx & Hx') (y & Hy & Hy')]; split.
  - exists x. split; [exact Hx | now apply gtb_true].
  - exists y. split; [exact Hy | now apply gtb_true].
  - exists x. split; [exact Hx | now apply gtb_true].
  - exists y. split; [exact Hy | now apply gtb_true].
Qed.

Lemma correct_and_wrong_clash (s : Scene) :
  moved_correct_obj s = true -> moved_wrong_obj s = true -> False.
Proof.
  rewrite moved_correct_obj_iff, moved_wrong_obj_iff.
  intros [_ Hall] [_ Hex].
  rewrite Forall_forall in Hall. rewrite Exists_exists in Hex.
  destruct Hex as (x & Hx & Hgt). specialize (Hall x Hx). lra.
Qed.

Lemma tabletop_dists (sp cp : vec3) (g : bool) (cs : list Contact) :
  source_obj_xy_move_dist (Tabletop.scene sp cp g cs)
  = xy_move_dist Tabletop.spoon_settle sp /\
  other_obj_xy_move_dist (Tabletop.scene sp cp g cs)
  = [xy_move_dist Tabletop.cloth_settle cp].
Proof. split; reflexivity. Qed.

Lemma at_rest_flags :
  moved_correct_obj Tabletop.at_rest = false /\
  moved_wrong_obj Tabletop.at_rest = false.
Proof.
  unfold Tabletop.at_rest, moved_correct_obj, moved_wrong_obj.
  destruct (tabletop_dists Tabletop.spoon_settle Tabletop.cloth_settle false [])
    as [-> ->].
  unfold Tabletop.spoon_settle, Tabletop.cloth_settle.
  rewrite !(xy_move_dist_along_x _ _ _ _ _ 0) by lra.
  cbn [forallb existsb].
  replace (gtb 0 0.03) with false by (symmetry; apply gtb_false; lra).
  split; reflexivity.
Qed.

Lemma spoon_pushed_flags :
  moved_correct_obj Tabletop.spoon_pushed = true /\
  moved_wrong_obj Tabletop.spoon_pushed = false.
Proof.
  unfold Tabletop.spoon_pushed, moved_correct_obj, moved_wrong_obj.
  destruct (tabletop_dists (Vec3 0.05 0 0) Tabletop.cloth_settle false [])
    as [-> ->].
  unfold Tabletop.spoon_settle, Tabletop.cloth_settle.
  rewrite (xy_move_dist_along_x _ _ _ _ _ 0.05) by lra.
  rewrite (xy_move_dist_along_x _ _ _ _ _ 0) by lra.
  cbn [forallb existsb].
  replace (gtb 0.05 0.03) with true by (symmetry; apply gtb_true; lra).
  replace (ltb 0 0.05) with true by (symmetry; apply ltb_true; lra).
  replace (gtb 0 0.03) with false by (symmetry; apply gtb_false; lra).
  split; reflexivity.
Qed.

Lemma cloth_dragged_flags :
  moved_correct_obj Tabletop.cloth_dragged = false /\
  moved_wrong_obj Tabletop.cloth_dragged = true.
Proof.
  unfold Tabletop.cloth_dragged, moved_correct_obj, moved_wrong_obj.
  destruct (tabletop_dists Tabletop.spoon_settle (Vec3 0.26 0 0) false [])
    as [-> ->].
  unfold Tabletop.spoon_settle, Tabletop.cloth_settle.
  rewrite (xy_move_dist_along_x _ _ _ _ _ 0) by lra.
  rewrite (xy_move_dist_along_x _ _ _ _ _ 0.06) by lra.
  cbn [forallb existsb].
  replace (gtb 0 0.03) with false by (symmetry; apply gtb_false; lra).
  replace (gtb 0.06 0.03) with true by (symmetry; apply gtb_true; lra).
  replace (gtb 0.06 0) with true by (symmetry; apply gtb_true; lra).
  split; reflexivity.
Qed.

(** C4.  The source's distance is the Euclidean distance, in the xy plane,
    between its settle position and its current position; the distances of
    the other objects are these distances for the tracked objects not named
    as the source; [moved_correct_obj] holds iff the source moved more than
    0.03 and every other distance is strictly below the source's;
    [moved_wrong_obj] holds iff some other distance exceeds 0.03 and some
    other distance strictly exceeds the source's; [evaluate] returns these
    two values; and a source moved by 0.05 among unmoved objects gives
    true and false. *)
Theorem displacement_classifier_spec :
  forall s : Scene,
    (source_obj_xy_move_dist s
     = sqrt ((vx (episode_source_obj_xyz_after_settle s)
              - vx (source_obj_pose s))
             * (vx (episode_source_obj_xyz_after_settle s)
                - vx (source_obj_pose s))
             + (vy (episode_source_obj_xyz_after_settle s)
                - vy (source_obj_pose s))
               * (vy (episode_source_obj_xyz_after_settle s)
                  - vy (source_obj_pose s)))) /\
    (forall d : R,
        In d (other_obj_xy_move_dist s) <->
        exists obj settle,
          In (obj, settle)
             (combine (episode_objs s) (episode_obj_xyzs_after_settle s)) /\
          name obj <> name (episode_source_obj s) /\
          d = sqrt ((vx settle - vx (pose_p obj))
                    * (vx settle - vx (pose_p obj))
                    + (vy settle - vy (pose_p obj))
                      * (vy settle - vy (pose_p obj)))) /\
    (forall d : R,
        In d (other_obj_xy_move_dist s) <->
        exists obj settle,
          In (obj, settle)
             (combine (episode_objs s) (episode_obj_xyzs_after_settle s)) /\
          name obj <> name (episode_source_obj s) /\
          d = xy_move_dist settle (pose_p obj)) /\
    (moved_correct_obj s = true <->
     0.03 < source_obj_xy_move_dist s /\
     Forall (fun x => x < source_obj_xy_move_dist s)
            (other_obj_xy_move_dist s)) /\
    (moved_wrong_obj s = true <->
     Exists (fun x => 0.03 < x) (other_obj_xy_move_dist s) /\
     Exists (fun x => source_obj_xy_move_dist s < x)
            (other_obj_xy_move_dist s)) /\
    (forall self : Self,
        ret_moved_correct_obj (fst (evaluate s self)) = moved_correct_obj s /\
        ret_moved_wrong_obj (fst (evaluate s self)) = moved_wrong_obj s) /\
    (source_obj_xy_move_dist s = 0.05 ->
     Forall (fun x => x = 0) (other_obj_xy_move_dist s) ->
     moved_correct_obj s = true /\ moved_wrong_obj s = false).
Proof.
  intros s. split; [|split; [|split; [|split; [|split; [|split]]]]].
  - reflexivity.
  - intros d. apply In_other_dists.
  - intros d. apply In_other_dists.
  - apply moved_correct_obj_iff.
  - apply moved_wrong_obj_iff.
  - intros self. split; reflexivity.
  - intros Hsrc Hothers.
    assert (Hc : moved_correct_obj s = true).
    { apply moved_correct_obj_iff. rewrite Hsrc. split; [lra|].
      eapply Forall_impl; [|exact Hothers]. simpl. intros x ->. lra. }
    split; [exact Hc|].
    destruct (moved_wrong_obj s) eqn:Hw; [|reflexivity].
    destruct (correct_and_wrong_clash s Hc Hw).
Qed.

Lemma displacement_classifier_spec_witness :
  source_obj_xy_move_dist Tabletop.carrot_pushed = 0.05 /\
  other_obj_xy_move_dist Tabletop.carrot_pushed = [0] /\
  moved_correct_obj Tabletop.carrot_pushed = true /\
  moved_wrong_obj Tabletop.carrot_pushed = false /\
  moved_correct_obj Tabletop.spoon_pushed = true /\
  moved_wrong_obj Tabletop.spoon_pushed = false.
Proof.
  destruct (displacement_classifier_spec Tabletop.carrot_pushed)
    as (Hdist & Hin & _ & _ & _ & _ & Hcarrot).
  destruct (displacement_classifier_spec Tabletop.spoon_pushed)
    as (Hdist' & _ & _ & _ & _ & _ & Hspoon).
  assert (Hsrc : source_obj_xy_move_dist Tabletop.carrot_pushed = 0.05).
  { rewrite Hdist.
    cbv [Tabletop.carrot_pushed Tabletop.carrot_scene Tabletop.carrot_settle
         episode_source_obj_xyz_after_settle source_obj_pose vx vy].
    apply sqrt_lem_1; lra. }
  assert (Hoth : other_obj_xy_move_dist Tabletop.carrot_pushed = [0]).
  { change (other_obj_xy_move_dist Tabletop.carrot_pushed)
      with [xy_move_dist Tabletop.plate_settle Tabletop.plate_settle].
    f_equal. apply norm2_sub_self. }
  assert (Hsrc' : source_obj_xy_move_dist Tabletop.spoon_pushed = 0.05).
  { rewrite Hdist'.
    cbv [Tabletop.spoon_pushed Tabletop.scene Tabletop.scene_with_target_bbox
         Tabletop.spoon_settle
         episode_source_obj_xyz_after_settle source_obj_pose vx vy].
    apply sqrt_lem_1; lra. }
  assert (Hoth' :
    Forall (fun x => x = 0) (other_obj_xy_move_dist Tabletop.spoon_pushed)).
  { unfold Tabletop.spoon_pushed.
    rewrite (proj2 (tabletop_dists _ _ _ _)).
    constructor; [|constructor].
    apply xy_move_dist_along_x; lra. }
  split; [exact Hsrc|]. split; [exact Hoth|].
  split; [|split; [|exact (Hspoon Hsrc' Hoth')]].
  - apply (Hcarrot Hsrc). rewrite Hoth. repeat constructor.
  - apply (Hcarrot Hsrc). rewrite Hoth. repeat constructor.
Defined.

(** C5, as the spec states it, fails: no input makes both flags true. *)
Lemma moved_flags_both_true_impossible :
  ~ ((exists s : Scene,
         moved_correct_obj s = true /\ moved_wrong_obj s = true) /\
     (exists s : Scene,
         moved_correct_obj s = false /\ moved_wrong_obj s = false)).
Proof.
  intros [(s & Hc & Hw) _]. exact (correct_and_wrong_clash s Hc Hw).
Qed.

(** C5, amended.  The two flags are never both true in one step, and there
    is an input for which both are false. *)
Theorem moved_flags_exclusive_not_exhaustive :
  (forall s : Scene,
      ~ (moved_correct_obj s = true /\ moved_wrong_obj s = true)) /\
  (exists s : Scene,
      moved_correct_obj s = false /\ moved_wrong_obj s = false).
Proof.
  split.
  - intros s [Hc Hw]. exact (correct_and_wrong_clash s Hc Hw).
  - exists Tabletop.at_rest. exact at_rest_flags.
Qed.

(** ** The statistics of the two displacement flags *)

Lemma run_last (pre : list Scene) (s : Scene) (self : Self) :
  run (pre ++ [s]) self = snd (evaluate s (run pre self)).
Proof. rewrite run_app. reflexivity. Qed.

(** C1, as the spec states it, fails: after a step in which the spoon has
    moved and a step in which it is back, the statistics say that the
    correct object has not moved; likewise for the wrong object. *)
Lemma moved_stats_regress :
  moved_correct_obj Tabletop.spoon_pushed = true /\
  stats_moved_correct_obj
    (episode_stats (run [Tabletop.spoon_pushed] (reset Tabletop.fresh)))
  = true /\
  stats_moved_correct_obj
    (episode_stats
       (run [Tabletop.spoon_pushed; Tabletop.at_rest] (reset Tabletop.fresh)))
  = false /\
  moved_wrong_obj Tabletop.cloth_dragged = true /\
  stats_moved_wrong_obj
    (episode_stats (run [Tabletop.cloth_dragged] (reset Tabletop.fresh)))
  = true /\
  stats_moved_wrong_obj
    (episode_stats
       (run [Tabletop.cloth_dragged; Tabletop.at_rest] (reset Tabletop.fresh)))
  = false.
Proof.
  destruct spoon_pushed_flags as [Hp _].
  destruct cloth_dragged_flags as [_ Hd].
  destruct at_rest_flags as [Hr1 Hr2].
  repeat split; assumption.
Qed.

(** C1, amended.  After every step the statistics hold that step's values of
    [moved_correct_obj] and [moved_wrong_obj], whatever the earlier steps of
    the episode gave. *)
Theorem moved_stats_overwritten :
  forall (pre : list Scene) (s : Scene) (self : Self),
    stats_moved_correct_obj (episode_stats (run (pre ++ [s]) self))
    = moved_correct_obj s /\
    stats_moved_wrong_obj (episode_stats (run (pre ++ [s]) self))
    = moved_wrong_obj s /\
    ret_moved_correct_obj (fst (evaluate s (run pre self)))
    = moved_correct_obj s /\
    ret_moved_wrong_obj (fst (evaluate s (run pre self)))
    = moved_wrong_obj s.
Proof.
  intros pre s self. rewrite run_last. repeat split.
Qed.

(** ** The bounding-box test *)

Lemma norm2_lt (a x y : R) : 0 < a -> x * x + y * y < a * a -> norm2 (x, y) < a.
Proof.
  intros Ha H. unfold norm2; simpl.
  rewrite <- (sqrt_square a) by lra.
  apply sqrt_lt_1_alt. split; [nra | exact H].
Qed.

Lemma xy_flag_iff (s : Scene) :
  xy_flag s = true <->
  norm2 (xy (offset s)) <= norm2 (xy (tgt_obj_half_length_bbox s)) - 0.005.
Proof. apply leb_true. Qed.

Lemma z_flag_iff (s : Scene) :
  z_flag s = true <->
  0 < vz (offset s) /\
  vz (offset s) - vz (tgt_obj_half_length_bbox s)
                - vz (src_obj_half_length_bbox s) <= 0.02.
Proof. unfold z_flag. now rewrite andb_true_iff, gtb_true, leb_true. Qed.

Lemma z_flag_false_iff (s : Scene) :
  z_flag s = false <->
  vz (offset s) <= 0 \/
  0.02 < vz (offset s) - vz (tgt_obj_half_length_bbox s)
                       - vz (src_obj_half_length_bbox s).
Proof. unfold z_flag. now rewrite andb_false_iff, gtb_false, leb_false. Qed.

(** C2.  The offset is source position minus target position and the
    half-lengths are the halved frame-0 boxes; the bounding-box test is
    [xy_flag] and [z_flag]; [xy_flag] holds iff the Euclidean norm of the xy
    offset is at most the Euclidean norm of the target's xy half-lengths
    minus 0.005; [z_flag] holds iff the z offset is positive and exceeds the
    two z half-lengths by at most 0.02; with z half-lengths 0.015 and 0.01 a
    z offset of 0.05 gives false and one of 0.04 gives true; a z offset that
    is not positive gives false. *)
Theorem bbox_test_spec :
  forall s : Scene,
    offset s = sub3 (source_obj_pose s) (target_obj_pose s) /\
    tgt_obj_half_length_bbox s = half3 (episode_target_obj_bbox_world s) /\
    src_obj_half_length_bbox s = half3 (episode_source_obj_bbox_world s) /\
    bbox_on_target s = xy_flag s && z_flag s /\
    (xy_flag s = true <->
     norm2 (xy (offset s))
     <= norm2 (xy (tgt_obj_half_length_bbox s)) - 0.005) /\
    (z_flag s = true <->
     0 < vz (offset s) /\
     vz (offset s) - vz (tgt_obj_half_length_bbox s)
                   - vz (src_obj_half_length_bbox s) <= 0.02) /\
    (vz (tgt_obj_half_length_bbox s) = 0.015 ->
     vz (src_obj_half_length_bbox s) = 0.01 ->
     (vz (offset s) = 0.05 -> z_flag s = false) /\
     (vz (offset s) = 0.04 -> z_flag s = true)) /\
    (vz (offset s) <= 0 -> z_flag s = false) /\
    (vx (offset s) = vx (source_obj_pose s) - vx (target_obj_pose s) /\
     vy (offset s) = vy (source_obj_pose s) - vy (target_obj_pose s) /\
     vz (offset s) = vz (source_obj_pose s) - vz (target_obj_pose s)) /\
    (vx (tgt_obj_half_length_bbox s)
     = vx (episode_target_obj_bbox_world s) / 2 /\
     vy (tgt_obj_half_length_bbox s)
     = vy (episode_target_obj_bbox_world s) / 2 /\
     vz (tgt_obj_half_length_bbox s)
     = vz (episode_target_obj_bbox_world s) / 2 /\
     vz (src_obj_half_length_bbox s)
     = vz (episode_source_obj_bbox_world s) / 2) /\
    (xy_flag s = true <->
     sqrt ((vx (source_obj_pose s) - vx (target_obj_pose s))
           * (vx (source_obj_pose s) - vx (target_obj_pose s))
           + (vy (source_obj_pose s) - vy (target_obj_pose s))
             * (vy (source_obj_pose s) - vy (target_obj_pose s)))
     <= sqrt (vx (episode_target_obj_bbox_world s) / 2
              * (vx (episode_target_obj_bbox_world s) / 2)
              + vy (episode_target_obj_bbox_world s) / 2
                * (vy (episode_target_obj_bbox_world s) / 2))
        - 0.005) /\
    (z_flag s = true <->
     0 < vz (source_obj_pose s) - vz (target_obj_pose s) /\
     vz (source_obj_pose s) - vz (target_obj_pose s)
     - vz (episode_target_obj_bbox_world s) / 2
     - vz (episode_source_obj_bbox_world s) / 2 <= 0.02) /\
    (bbox_on_target s = true <-> xy_flag s = true /\ z_flag s = true).
Proof.
  intros s. repeat (split; [reflexivity|]).
  split; [apply xy_flag_iff|]. split; [apply z_flag_iff|]. split.
  - intros Ht Hs. split; intros Ho.
    + apply z_flag_false_iff. right. rewrite Ho, Ht, Hs. lra.
    + apply z_flag_iff. rewrite Ho, Ht, Hs. lra.
  - split; [intros Ho; apply z_flag_false_iff; now left|].
    split; [repeat split|]. split; [repeat split|].
    split; [apply xy_flag_iff|]. split; [apply z_flag_iff|].
    apply andb_true_iff.
Qed.

Lemma bbox_test_spec_witness :
  z_flag Tabletop.spoon_5cm_over_thick_target = false /\
  z_flag Tabletop.spoon_4cm_over_thick_target = true /\
  z_flag Tabletop.at_rest = false /\
  (xy_flag Tabletop.carrot_on_plate = true /\
   z_flag Tabletop.carrot_on_plate = true /\
   bbox_on_target Tabletop.carrot_on_plate = true) /\
  (xy_flag Tabletop.carrot_off_plate = false /\
   z_flag Tabletop.carrot_off_plate = false /\
   bbox_on_target Tabletop.carrot_off_plate = false) /\
  z_flag Tabletop.carrot_below_plate = false.
Proof.
  destruct (bbox_test_spec Tabletop.spoon_5cm_over_thick_target)
    as (_ & _ & _ & _ & _ & _ & H5 & _).
  destruct (bbox_test_spec Tabletop.spoon_4cm_over_thick_target)
    as (_ & _ & _ & _ & _ & _ & H4 & _).
  destruct (bbox_test_spec Tabletop.at_rest)
    as (_ & _ & _ & _ & _ & _ & _ & H0 & _).
  destruct (bbox_test_spec Tabletop.carrot_on_plate)
    as (_ & _ & _ & _ & _ & _ & _ & _ & _ & _ & Hxy1 & Hz1 & Hb1).
  destruct (bbox_test_spec Tabletop.carrot_off_plate)
    as (_ & _ & _ & _ & _ & _ & _ & _ & _ & _ & Hxy2 & Hz2 & Hb2).
  destruct (bbox_test_spec Tabletop.carrot_below_plate)
    as (_ & _ & _ & _ & _ & _ & _ & _ & _ & _ & _ & Hz3 & _).
  cbv [Tabletop.carrot_on_plate Tabletop.carrot_off_plate
       Tabletop.carrot_below_plate Tabletop.carrot_scene
       Tabletop.plate_settle source_obj_pose target_obj_pose
       episode_target_obj_bbox_world episode_source_obj_bbox_world
       vx vy vz] in Hxy1, Hz1, Hxy2, Hz2, Hz3.
  assert (Hlo : 0.07 <= sqrt (0.1 / 2 * (0.1 / 2) + 0.1 / 2 * (0.1 / 2))).
  { rewrite <- (sqrt_square 0.07) at 1 by lra. apply sqrt_le_1_alt. lra. }
  assert (Hhi : sqrt (0.1 / 2 * (0.1 / 2) + 0.1 / 2 * (0.1 / 2)) < 0.071).
  { rewrite <- (sqrt_square 0.071) by lra. apply sqrt_lt_1_alt. lra. }
  assert (E1 : sqrt ((0.53 - 0.5) * (0.53 - 0.5)
                     + (0.14 - 0.1) * (0.14 - 0.1)) = 0.05)
    by (apply sqrt_lem_1; lra).
  assert (E2 : sqrt ((0.56 - 0.5) * (0.56 - 0.5)
                     + (0.18 - 0.1) * (0.18 - 0.1)) = 0.1)
    by (apply sqrt_lem_1; lra).
  rewrite E1 in Hxy1. rewrite E2 in Hxy2.
  assert (X1 : xy_flag Tabletop.carrot_on_plate = true)
    by (apply Hxy1; lra).
  assert (Z1 : z_flag Tabletop.carrot_on_plate = true)
    by (apply Hz1; lra).
  assert (X2 : xy_flag Tabletop.carrot_off_plate = false).
  { destruct (xy_flag Tabletop.carrot_off_plate) eqn:E; [|reflexivity].
    pose proof (proj1 Hxy2 E) as H. lra. }
  assert (Z2 : z_flag Tabletop.carrot_off_plate = false).
  { destruct (z_flag Tabletop.carrot_off_plate) eqn:E; [|reflexivity].
    pose proof (proj1 Hz2 E) as H. lra. }
  assert (Z3 : z_flag Tabletop.carrot_below_plate = false).
  { destruct (z_flag Tabletop.carrot_below_plate) eqn:E; [|reflexivity].
    pose proof (proj1 Hz3 E) as H. lra. }
  split; [apply H5; simpl; lra|].
  split; [apply H4; simpl; lra|].
  split; [apply H0; simpl; lra|].
  split; [split; [exact X1|]; split; [exact Z1|]; apply Hb1; now split|].
  split; [|exact Z3].
  split; [exact X2|]. split; [exact Z2|].
  destruct (bbox_on_target Tabletop.carrot_off_plate); [|reflexivity].
  destruct (proj1 Hb2 eq_refl) as [Hx _]. congruence.
Defined.

(** ** The contact filter *)

Lemma norm3_eq (a x y z : R) :
  0 <= a -> x * x + y * y + z * z = a * a -> norm3 (Vec3 x y z) = a.
Proof.
  intros Ha H. unfold norm3; simpl. rewrite H. now apply sqrt_square.
Qed.

Lemma impulse_single_z (a0 a1 : string) (m : R) :
  0 <= m -> norm3 (contact_impulse (mkContact a0 a1 [Vec3 0 0 m])) = m.
Proof.
  intros Hm. unfold contact_impulse, sum3; simpl. unfold add3; simpl.
  apply norm3_eq; [exact Hm | nra].
Qed.

Lemma name_in_iff (n : string) (names : list string) :
  name_in n names = true <-> In n names.
Proof.
  unfold name_in. rewrite existsb_exists. split.
  - intros (m & Hm & E). apply String.eqb_eq in E. now subst.
  - intros H. exists n. split; [exact H | apply String.eqb_refl].
Qed.

Lemma other_name_iff (src_name : string) (c : Contact) (other : string) :
  other_obj_contact_actor_name src_name c = Some other <->
  (actor0 c = src_name /\ other = actor1 c) \/
  (actor0 c <> src_name /\ actor1 c = src_name /\ other = actor0 c).
Proof.
  unfold other_obj_contact_actor_name.
  destruct (String.eqb_spec (actor0 c) src_name) as [E0|E0];
    [|destruct (String.eqb_spec (actor1 c) src_name) as [E1|E1]];
    split; intros H.
  - injection H as <-. now left.
  - destruct H as [[_ ->]|[N _]]; [reflexivity | contradiction].
  - injection H as <-. now right.
  - destruct H as [[E _]|(_ & _ & ->)]; [contradiction | reflexivity].
  - discriminate.
  - destruct H as [[E _]|(_ & E & _)]; contradiction.
Qed.

Lemma vetoes_iff (src_name : string) (ignore : list string) (c : Contact) :
  vetoes src_name ignore c = true <->
  exists other,
    other_obj_contact_actor_name src_name c = Some other /\
    ~ In other ignore /\
    1e-6 < norm3 (contact_impulse c).
Proof.
  unfold vetoes.
  destruct (other_obj_contact_actor_name src_name c) as [other|].
  - rewrite andb_true_iff, negb_true_iff, gtb_true. split.
    + intros [Hn Hm]. exists other. repeat split; [|exact Hm].
      intros Hin. apply name_in_iff in Hin. congruence.
    + intros (o & Ho & Hn & Hm). injection Ho as <-. split; [|exact Hm].
      destruct (name_in other ignore) eqn:E; [|reflexivity].
      apply name_in_iff in E. contradiction.
  - split; [discriminate | intros (o & Ho & _); discriminate].
Qed.

Lemma contact_loop_false_iff (src_name : string) (ignore : list string)
    (contacts : list Contact) :
  fst (contact_loop src_name ignore contacts) = false <->
  exists c, In c contacts /\ vetoes src_name ignore c = true.
Proof.
  induction contacts as [|c rest IH]; simpl.
  - split; [discriminate | intros (c & [] & _)].
  - destruct (vetoes src_name ignore c) eqn:E; simpl.
    + split; [|reflexivity]. intros _. exists c. auto.
    + rewrite IH. split.
      * intros (c' & Hin & Hv). exists c'. auto.
      * intros (c' & [<-|Hin] & Hv); [congruence|]. exists c'. auto.
Qed.

Lemma contact_loop_first_veto (src_name : string) (ignore : list string)
    (pre : list Contact) (c : Contact) (post : list Contact) :
  (forall c', In c' pre -> vetoes src_name ignore c' = false) ->
  vetoes src_name ignore c = true ->
  contact_loop src_name ignore (pre ++ c :: post) = (false, post).
Proof.
  intros Hpre Hc. induction pre as [|p pre IH]; simpl.
  - now rewrite Hc.
  - rewrite (Hpre p) by (now left). apply IH.
    intros c' Hin. apply Hpre. now right.
Qed.

Lemma contact_loop_no_veto (src_name : string) (ignore : list string)
    (contacts : list Contact) :
  (forall c, In c contacts -> vetoes src_name ignore c = false) ->
  contact_loop src_name ignore contacts = (true, []).
Proof.
  intros H. induction contacts as [|c rest IH]; simpl.
  - reflexivity.
  - rewrite (H c) by (now left). apply IH.
    intros c' Hin. apply H. now right.
Qed.

Lemma table_contact_vetoes (m : R) :
  0 <= m ->
  vetoes "spoon" ["cloth"; "gripper_left"; "gripper_right"]%string
    (Tabletop.table_contact m)
  = gtb m 1e-6.
Proof.
  intros Hm. unfold vetoes, Tabletop.table_contact.
  rewrite impulse_single_z by exact Hm. reflexivity.
Qed.

Lemma ignored_contact_passes (src_name : string) (ignore : list string)
    (c : Contact) (other : string) :
  other_obj_contact_actor_name src_name c = Some other ->
  In other ignore ->
  vetoes src_name ignore c = false.
Proof.
  intros Ho Hin. unfold vetoes. rewrite Ho.
  apply name_in_iff in Hin. now rewrite Hin.
Qed.

Lemma fold_add3_components (vs : list vec3) (acc : vec3) :
  fold_left add3 vs acc
  = Vec3 (vx acc + fold_right Rplus 0 (map vx vs))
         (vy acc + fold_right Rplus 0 (map vy vs))
         (vz acc + fold_right Rplus 0 (map vz vs)).
Proof.
  revert acc. induction vs as [|v vs IH]; intros acc; simpl.
  - destruct acc as [x y z]; simpl. f_equal; lra.
  - rewrite IH. unfold add3; simpl. f_equal; lra.
Qed.

Lemma sum3_components (vs : list vec3) :
  sum3 vs
  = Vec3 (fold_right Rplus 0 (map vx vs))
         (fold_right Rplus 0 (map vy vs))
         (fold_right Rplus 0 (map vz vs)).
Proof.
  unfold sum3. rewrite fold_add3_components. simpl. f_equal; lra.
Qed.

Lemma lt_sqrt (a x : R) : 0 <= a -> a * a < x -> a < sqrt x.
Proof.
  intros Ha H. rewrite <- (sqrt_square a) at 1 by exact Ha.
  apply sqrt_lt_1_alt. split; [nra | exact H].
Qed.

Lemma sqrt_le_bound (a x : R) : 0 <= a -> x <= a * a -> sqrt x <= a.
Proof.
  intros Ha H. rewrite <- (sqrt_square a) by exact Ha.
  apply sqrt_le_1_alt. exact H.
Qed.

(** C3.  The names the filter ignores are the target's and the robot
    links'; the other party of a contact is its second actor when the first
    is the source and its first actor when only the second is; the filter
    vetoes iff some contact of the source has another party that is neither
    the target nor a robot link and an impulse sum of norm strictly above
    1e-6; a contact of norm exactly 1e-6 does not veto, and if every contact
    has that norm the filter passes; a contact with such another party and
    norm 1e-6 + eps vetoes; the loop leaves at the first contact that
    vetoes, without reaching the contacts after it; and the impulse of a
    contact is the component-wise sum of the impulses of its points, its
    norm the Euclidean norm of that sum. *)
Theorem contact_filter_spec :
  forall s : Scene,
    (forall n : string,
        In n (ignore_actor_names s) <->
        n = name (episode_target_obj s) \/ In n (robot_link_names s)) /\
    (forall (c : Contact) (other : string),
        other_obj_contact_actor_name (name (episode_source_obj s)) c
        = Some other <->
        (actor0 c = name (episode_source_obj s) /\ other = actor1 c) \/
        (actor0 c <> name (episode_source_obj s) /\
         actor1 c = name (episode_source_obj s) /\ other = actor0 c)) /\
    (contact_flag s = false <->
     exists (c : Contact) (other : string),
       In c (get_contacts s) /\
       other_obj_contact_actor_name (name (episode_source_obj s)) c
       = Some other /\
       ~ (other = name (episode_target_obj s) \/
          In other (robot_link_names s)) /\
       1e-6 < norm3 (sum3 (points c))) /\
    (forall c : Contact,
        norm3 (sum3 (points c)) = 1e-6 ->
        vetoes (name (episode_source_obj s)) (ignore_actor_names s) c
        = false) /\
    ((forall c : Contact,
         In c (get_contacts s) -> norm3 (sum3 (points c)) = 1e-6) ->
     contact_flag s = true) /\
    (forall (c : Contact) (other : string) (eps : R),
        other_obj_contact_actor_name (name (episode_source_obj s)) c
        = Some other ->
        ~ (other = name (episode_target_obj s) \/
           In other (robot_link_names s)) ->
        0 < eps ->
        norm3 (sum3 (points c)) = 1e-6 + eps ->
        vetoes (name (episode_source_obj s)) (ignore_actor_names s) c
        = true) /\
    (forall (pre : list Contact) (c : Contact) (post : list Contact),
        get_contacts s = pre ++ c :: post ->
        (forall c' : Contact,
            In c' pre ->
            vetoes (name (episode_source_obj s)) (ignore_actor_names s) c'
            = false) ->
        vetoes (name (episode_source_obj s)) (ignore_actor_names s) c
        = true ->
        contact_loop (name (episode_source_obj s)) (ignore_actor_names s)
          (get_contacts s)
        = (false, post) /\
        contact_flag s = false) /\
    (forall c : Contact,
        contact_impulse c
        = Vec3 (fold_right Rplus 0 (map vx (points c)))
               (fold_right Rplus 0 (map vy (points c)))
               (fold_right Rplus 0 (map vz (points c)))) /\
    (contact_flag s = false <->
     exists (c : Contact) (other : string),
       In c (get_contacts s) /\
       other_obj_contact_actor_name (name (episode_source_obj s)) c
       = Some other /\
       ~ (other = name (episode_target_obj s) \/
          In other (robot_link_names s)) /\
       1e-6 < sqrt (fold_right Rplus 0 (map vx (points c))
                    * fold_right Rplus 0 (map vx (points c))
                    + fold_right Rplus 0 (map vy (points c))
                      * fold_right Rplus 0 (map vy (points c))
                    + fold_right Rplus 0 (map vz (points c))
                      * fold_right Rplus 0 (map vz (points c)))).
Proof.
  intros s.
  assert (Hign : forall n : string,
    In n (ignore_actor_names s) <->
    n = name (episode_target_obj s) \/ In n (robot_link_names s)).
  { intros n. unfold ignore_actor_names. simpl. split.
    - intros [H|H]; [left; now symmetry | now right].
    - intros [H|H]; [left; now symmetry | now right]. }
  assert (Hexact : forall c : Contact,
    norm3 (sum3 (points c)) = 1e-6 ->
    vetoes (name (episode_source_obj s)) (ignore_actor_names s) c = false).
  { intros c Hm.
    destruct (vetoes _ _ c) eqn:E; [|reflexivity].
    apply vetoes_iff in E. destruct E as (o & _ & _ & Hgt).
    unfold contact_impulse in Hgt. lra. }
  split; [exact Hign|]. split; [intros c other; apply other_name_iff|].
  assert (Hflag : contact_flag s = false <->
    exists (c : Contact) (other : string),
      In c (get_contacts s) /\
      other_obj_contact_actor_name (name (episode_source_obj s)) c
      = Some other /\
      ~ (other = name (episode_target_obj s) \/
         In other (robot_link_names s)) /\
      1e-6 < norm3 (sum3 (points c))).
  { unfold contact_flag. rewrite contact_loop_false_iff. split.
    - intros (c & Hin & Hv). apply vetoes_iff in Hv.
      destruct Hv as (o & Ho & Hn & Hm). exists c, o.
      rewrite Hign in Hn. auto.
    - intros (c & o & Hin & Ho & Hn & Hm). exists c. split; [exact Hin|].
      apply vetoes_iff. exists o. rewrite Hign. auto. }
  split; [exact Hflag|].
  split; [exact Hexact|split; [|split; [|split; [|split]]]].
  - intros Hall. unfold contact_flag.
    rewrite contact_loop_no_veto; [reflexivity|].
    intros c Hin. apply Hexact. now apply Hall.
  - intros c other eps Ho Hn Heps Hm. apply vetoes_iff. exists other.
    rewrite Hign. split; [exact Ho|]. split; [exact Hn|].
    unfold contact_impulse. lra.
  - intros pre c post Hcs Hpre Hc. unfold contact_flag. rewrite Hcs.
    rewrite (contact_loop_first_veto _ _ pre c post Hpre Hc).
    split; reflexivity.
  - intros c. apply sum3_components.
  - rewrite Hflag. split.
    + intros (c & o & Hin & Ho & Hn & Hm). exists c, o.
      rewrite sum3_components in Hm. auto.
    + intros (c & o & Hin & Ho & Hn & Hm). exists c, o.
      rewrite sum3_components. auto.
Qed.

Lemma contact_filter_spec_witness :
  contact_flag Tabletop.spoon_grazing_table = true /\
  vetoes "spoon" ["cloth"; "gripper_left"; "gripper_right"]%string
    (Tabletop.table_contact (1e-6 + 1e-9)) = true /\
  contact_loop "spoon" ["cloth"; "gripper_left"; "gripper_right"]%string
    (get_contacts Tabletop.spoon_dragged_on_table)
  = (false, [Tabletop.table_contact 0.7]) /\
  contact_flag Tabletop.carrot_grazing_table = true /\
  contact_flag Tabletop.carrot_pressing_table = false /\
  contact_flag Tabletop.carrot_balanced_on_table = true.
Proof.
  destruct (contact_filter_spec Tabletop.spoon_grazing_table)
    as (_ & _ & _ & _ & Hall & Heps & _).
  destruct (contact_filter_spec Tabletop.spoon_dragged_on_table)
    as (_ & _ & _ & _ & _ & _ & Hfirst & _).
  destruct (contact_filter_spec Tabletop.carrot_grazing_table)
    as (_ & _ & _ & _ & _ & _ & _ & _ & Hgraze).
  destruct (contact_filter_spec Tabletop.carrot_pressing_table)
    as (_ & _ & _ & _ & _ & _ & _ & _ & Hpress).
  destruct (contact_filter_spec Tabletop.carrot_balanced_on_table)
    as (_ & _ & _ & _ & _ & _ & _ & _ & Hbal).
  split; [|split; [|split; [|split; [|split]]]].
  - apply Hall. intros c [<-|[]].
    apply (impulse_single_z "spoon" "table" 1e-6). lra.
  - apply (Heps (Tabletop.table_contact (1e-6 + 1e-9)) "table"%string 1e-9).
    + reflexivity.
    + simpl. intros [H|[H|[H|[]]]]; discriminate.
    + lra.
    + apply (impulse_single_z "spoon" "table" (1e-6 + 1e-9)). lra.
  - apply (Hfirst [Tabletop.gripper_contact] (Tabletop.table_contact 0.5)
             [Tabletop.table_contact 0.7]).
    + reflexivity.
    + intros c' [<-|[]].
      apply (ignored_contact_passes _ _ _ "gripper_left"%string).
      * reflexivity.
      * simpl. auto.
    + apply (eq_trans (table_contact_vetoes 0.5 ltac:(lra))).
      apply gtb_true. lra.
  - destruct (contact_flag Tabletop.carrot_grazing_table) eqn:E;
      [reflexivity|].
    destruct (proj1 Hgraze eq_refl) as (c & o & [<-|[]] & _ & _ & Hm).
    cbv [Tabletop.two_point_contact points map fold_right vx vy vz] in Hm.
    assert (sqrt ((3e-7 + (3e-7 + 0)) * (3e-7 + (3e-7 + 0))
                  + (0 + (8e-7 + 0)) * (0 + (8e-7 + 0))
                  + (0 + (0 + 0)) * (0 + (0 + 0))) <= 1e-6)
      by (apply sqrt_le_bound; lra).
    lra.
  - apply Hpress.
    exists (Tabletop.two_point_contact (Vec3 0 0 6e-7) (Vec3 0 0 6e-7)),
      "table"%string.
    split; [simpl; auto|]. split; [reflexivity|]. split.
    + simpl. intros [H|[H|[H|[]]]]; discriminate.
    + cbv [Tabletop.two_point_contact points map fold_right vx vy vz].
      apply lt_sqrt; lra.
  - destruct (contact_flag Tabletop.carrot_balanced_on_table) eqn:E;
      [reflexivity|].
    destruct (proj1 Hbal eq_refl) as (c & o & [<-|[]] & _ & _ & Hm).
    cbv [Tabletop.two_point_contact points map fold_right vx vy vz] in Hm.
    assert (sqrt ((0 + (0 + 0)) * (0 + (0 + 0))
                  + (0.5 + (-0.5 + 0)) * (0.5 + (-0.5 + 0))
                  + (0 + (0 + 0)) * (0 + (0 + 0))) <= 1e-6)
      by (apply sqrt_le_bound; lra).
    lra.
Defined.

(** ** The evaluator's verdict *)

(** Unfolds a concrete scene down to the coordinates it is built from. *)
Ltac tabletop :=
  cbv [Tabletop.at_rest Tabletop.spoon_pushed Tabletop.cloth_dragged
       Tabletop.spoon_on_cloth Tabletop.spoon_held_over_cloth
       Tabletop.spoon_5cm_over_thick_target
       Tabletop.spoon_4cm_over_thick_target Tabletop.spoon_over_pin
       Tabletop.spoon_dragged_on_table Tabletop.spoon_grazing_table
       Tabletop.scene Tabletop.scene_with_target_bbox
       Tabletop.spoon_settle Tabletop.cloth_settle
       offset tgt_obj_half_length_bbox src_obj_half_length_bbox
       source_obj_pose target_obj_pose
       episode_target_obj_bbox_world episode_source_obj_bbox_world
       xy sub3 half3 vx vy vz].

Lemma centred_xy_flag (s : Scene) :
  xy (offset s) = (0, 0) ->
  0.005 <= norm2 (xy (tgt_obj_half_length_bbox s)) ->
  xy_flag s = true.
Proof.
  intros Hoff Hwide. apply xy_flag_iff. rewrite Hoff, norm2_zero. lra.
Qed.

Lemma spoon_on_cloth_verdict :
  bbox_on_target Tabletop.spoon_on_cloth = true /\
  contact_flag Tabletop.spoon_on_cloth = true.
Proof.
  split.
  - unfold bbox_on_target. apply andb_true_iff. split.
    + apply centred_xy_flag.
      * tabletop. f_equal; lra.
      * tabletop. apply le_norm2; lra.
    + apply z_flag_iff. tabletop. lra.
  - unfold contact_flag, Tabletop.spoon_on_cloth.
    rewrite contact_loop_no_veto; [reflexivity|].
    intros c [<-|[]].
    apply (ignored_contact_passes _ _ _ "cloth"%string).
    + reflexivity.
    + simpl. auto.
Qed.

Lemma at_rest_verdict : bbox_on_target Tabletop.at_rest = false.
Proof.
  unfold bbox_on_target. apply andb_false_iff. right.
  apply z_flag_false_iff. left. tabletop. lra.
Qed.

(** C7, as the spec states it, fails: a source centred over a target 4 mm
    wide, with a vertical gap of 0.01 and no contact at all, is not a
    success. *)
Lemma centred_over_narrow_target_fails :
  xy (offset Tabletop.spoon_over_pin) = (0, 0) /\
  0 < vz (offset Tabletop.spoon_over_pin) /\
  vz (offset Tabletop.spoon_over_pin)
  - vz (tgt_obj_half_length_bbox Tabletop.spoon_over_pin)
  - vz (src_obj_half_length_bbox Tabletop.spoon_over_pin) = 0.01 /\
  get_contacts Tabletop.spoon_over_pin = [] /\
  contact_flag Tabletop.spoon_over_pin = true /\
  ret_success (fst (evaluate Tabletop.spoon_over_pin Tabletop.fresh)) = false.
Proof.
  assert (Hoff : xy (offset Tabletop.spoon_over_pin) = (0, 0)).
  { tabletop. f_equal; lra. }
  split; [exact Hoff|]. split; [tabletop; lra|]. split; [tabletop; lra|].
  split; [reflexivity|]. split; [reflexivity|].
  change (ret_success (fst (evaluate Tabletop.spoon_over_pin Tabletop.fresh)))
    with (xy_flag Tabletop.spoon_over_pin && z_flag Tabletop.spoon_over_pin
          && contact_flag Tabletop.spoon_over_pin).
  replace (xy_flag Tabletop.spoon_over_pin) with false; [reflexivity|].
  symmetry. apply leb_false. rewrite Hoff, norm2_zero.
  assert (norm2 (xy (tgt_obj_half_length_bbox Tabletop.spoon_over_pin))
          < 0.005); [|lra].
  tabletop. apply norm2_lt; lra.
Qed.

(** C7, amended.  The returned [success] is the returned [src_on_target],
    which is the bounding-box test and the contact filter together; with an
    xy offset of zero above a target whose xy half-lengths have norm at
    least 0.005, a vertical gap of 0.01 and a contact filter that passes,
    [success] is true. *)
Theorem evaluate_success_spec :
  forall (s : Scene) (self : Self),
    ret_success (fst (evaluate s self))
    = ret_src_on_target (fst (evaluate s self)) /\
    ret_src_on_target (fst (evaluate s self))
    = (xy_flag s && z_flag s) && contact_flag s /\
    (xy (offset s) = (0, 0) ->
     0.005 <= norm2 (xy (tgt_obj_half_length_bbox s)) ->
     0 < vz (offset s) ->
     vz (offset s) - vz (tgt_obj_half_length_bbox s)
                   - vz (src_obj_half_length_bbox s) = 0.01 ->
     contact_flag s = true ->
     ret_success (fst (evaluate s self)) = true).
Proof.
  intros s self. split; [reflexivity|]. split; [reflexivity|].
  intros Hoff Hwide Habove Hgap Hcontact.
  change (ret_success (fst (evaluate s self)))
    with (xy_flag s && z_flag s && contact_flag s).
  rewrite Hcontact, (centred_xy_flag s Hoff Hwide).
  replace (z_flag s) with true; [reflexivity|].
  symmetry. apply z_flag_iff. split; [exact Habove | lra].
Qed.

Lemma evaluate_success_spec_witness :
  ret_success (fst (evaluate Tabletop.spoon_on_cloth Tabletop.fresh)) = true.
Proof.
  destruct (evaluate_success_spec Tabletop.spoon_on_cloth Tabletop.fresh)
    as (_ & _ & H).
  apply H.
  - tabletop. f_equal; lra.
  - tabletop. apply le_norm2; lra.
  - tabletop. lra.
  - tabletop. lra.
  - exact (proj2 spoon_on_cloth_verdict).
Defined.

(** ** The statistics of grasp and placement *)

(** C8.  The statistics of [is_src_obj_grasped] and [consecutive_grasp] are
    the old entry or the step's value, so that once true they stay true for
    the rest of the episode; the statistic [src_on_target] is the step's
    value, and goes from true back to false when the spoon is on the cloth in
    one step and off it in the next. *)
Theorem grasp_and_placement_stats :
  (forall (s : Scene) (self : Self),
      stats_is_src_obj_grasped (episode_stats (snd (evaluate s self)))
      = stats_is_src_obj_grasped (episode_stats self)
        || ret_is_src_obj_grasped (fst (evaluate s self)) /\
      stats_consecutive_grasp (episode_stats (snd (evaluate s self)))
      = stats_consecutive_grasp (episode_stats self)
        || ret_consecutive_grasp (fst (evaluate s self)) /\
      stats_src_on_target (episode_stats (snd (evaluate s self)))
      = ret_src_on_target (fst (evaluate s self)) /\
      ret_episode_stats (fst (evaluate s self))
      = episode_stats (snd (evaluate s self))) /\
  (forall (scenes : list Scene) (self : Self),
      (stats_is_src_obj_grasped (episode_stats self) = true ->
       stats_is_src_obj_grasped (episode_stats (run scenes self)) = true) /\
      (stats_consecutive_grasp (episode_stats self) = true ->
       stats_consecutive_grasp (episode_stats (run scenes self)) = true)) /\
  stats_src_on_target
    (episode_stats (run [Tabletop.spoon_on_cloth] (reset Tabletop.fresh)))
  = true /\
  stats_src_on_target
    (episode_stats
       (run [Tabletop.spoon_on_cloth; Tabletop.at_rest]
            (reset Tabletop.fresh)))
  = false.
Proof.
  split; [|split; [|split]].
  - intros s self. repeat split.
  - intros scenes self. split.
    + apply run_grasped_stays.
    + apply run_consecutive_stays.
  - change (bbox_on_target Tabletop.spoon_on_cloth
            && contact_flag Tabletop.spoon_on_cloth = true).
    destruct spoon_on_cloth_verdict as [-> ->]. reflexivity.
  - change (bbox_on_target Tabletop.at_rest
            && contact_flag Tabletop.at_rest = false).
    now rewrite at_rest_verdict.
Qed.

Lemma grasp_and_placement_stats_witness :
  stats_is_src_obj_grasped
    (episode_stats
       (run [Tabletop.spoon_held_over_cloth; Tabletop.at_rest]
            (reset Tabletop.fresh)))
  = true.
Proof.
  destruct grasp_and_placement_stats as (_ & Hstay & _).
  change (stats_is_src_obj_grasped
            (episode_stats
               (run [Tabletop.at_rest]
                  (run [Tabletop.spoon_held_over_cloth]
                       (reset Tabletop.fresh)))) = true).
  apply (proj1 (Hstay [Tabletop.at_rest] _)). reflexivity.
Defined.

(** ** The placement grid of [PutOnBridgeInSceneEnv.reset] *)

Module Grid.

Import PutOnBridgeInSceneEnv.

Local Open Scope Z_scope.

Lemma len_pos {A : Type} (l : list A) : l <> [] -> 0 < len l.
Proof. destruct l; [congruence | unfold len; simpl; lia]. Qed.

Lemma py_index_in_range {A : Type} (l : list A) (i : Z) :
  0 <= i < len l ->
  exists a, nth_error l (Z.to_nat i) = Some a /\ py_index l i = inr a.
Proof.
  intros [Hlo Hhi]. unfold py_index.
  replace (i <? 0) with false by (symmetry; apply Z.ltb_ge; lia).
  replace (i <? 0) with false by (symmetry; apply Z.ltb_ge; lia).
  destruct (nth_error l (Z.to_nat i)) as [a|] eqn:E.
  - exists a. split; reflexivity.
  - apply nth_error_None in E. unfold len in Hhi. lia.
Qed.

Lemma xy_index_in_range (e X Q : Z) :
  0 < X -> 0 < Q -> 0 <= (e mod (X * Q)) / Q < X.
Proof.
  intros HX HQ.
  assert (H : 0 <= e mod (X * Q) < X * Q) by (apply Z.mod_pos_bound; nia).
  split.
  - apply Z.div_pos; lia.
  - apply Z.div_lt_upper_bound; [lia | nia].
Qed.

Lemma select_congruent {XY Quat : Type} (xy_configs : list XY)
    (quat_configs : list Quat) (e1 e2 k : Z) :
  e1 = e2 + k * (len xy_configs * len quat_configs) ->
  select_xy_config xy_configs quat_configs e1
  = select_xy_config xy_configs quat_configs e2 /\
  select_quat_config quat_configs e1 = select_quat_config quat_configs e2.
Proof.
  intros ->. unfold select_xy_config, select_quat_config, py_mod.
  destruct (Z.eqb_spec (len xy_configs * len quat_configs) 0) as [E|E].
  - rewrite E, Z.mul_0_r, Z.add_0_r. split; reflexivity.
  - rewrite Z_mod_plus_full. split; [reflexivity|].
    replace (e2 + k * (len xy_configs * len quat_configs))
      with (e2 + (k * len xy_configs) * len quat_configs) by ring.
    rewrite Z_mod_plus_full. reflexivity.
Qed.

End Grid.

(** C10.  [reset] works with the episode id of [obj_init_options], zero when
    [options], [obj_init_options] or the id is missing; what it passes on is
    built from the two selections made for that id; with both tables
    non-empty the rotation selected is the entry at [id mod len quat] and
    the xy configuration the entry at [(id mod (len xy * len quat)) / len
    quat], both within the tables; with an empty table the call raises; and
    two ids that differ by a multiple of [len xy * len quat] select the same
    pair. *)
Theorem reset_selects_by_episode_id :
  forall (XY Quat : Type) (source_obj_name target_obj_name : string)
         (xy_configs : list XY) (quat_configs : list Quat),
    let X := PutOnBridgeInSceneEnv.len xy_configs in
    let Q := PutOnBridgeInSceneEnv.len quat_configs in
    (PutOnBridgeInSceneEnv.episode_id_of (XY := XY) (Quat := Quat) None = 0%Z /\
     (forall m,
         PutOnBridgeInSceneEnv.episode_id_of
           (Some (PutOnBridgeInSceneEnv.mkOptions (XY := XY) (Quat := Quat)
                    m None)) = 0%Z) /\
     (forall m a b (x : option XY) (q : option Quat),
         PutOnBridgeInSceneEnv.episode_id_of
           (Some (PutOnBridgeInSceneEnv.mkOptions m
                    (Some (PutOnBridgeInSceneEnv.mkObjInit None a b x q))))
         = 0%Z) /\
     (forall m e a b (x : option XY) (q : option Quat),
         PutOnBridgeInSceneEnv.episode_id_of
           (Some (PutOnBridgeInSceneEnv.mkOptions m
                    (Some (PutOnBridgeInSceneEnv.mkObjInit (Some e) a b x q))))
         = e)) /\
    (forall options : option (PutOnBridgeInSceneEnv.Options XY Quat),
        PutOnBridgeInSceneEnv.reset_options source_obj_name target_obj_name
          xy_configs quat_configs options
        = PutOnBridgeInSceneEnv.bind
            (PutOnBridgeInSceneEnv.select_xy_config xy_configs quat_configs
               (PutOnBridgeInSceneEnv.episode_id_of options))
            (fun xy_config =>
               PutOnBridgeInSceneEnv.bind
                 (PutOnBridgeInSceneEnv.select_quat_config quat_configs
                    (PutOnBridgeInSceneEnv.episode_id_of options))
                 (fun quat_config =>
                    PutOnBridgeInSceneEnv.ret
                      (PutOnBridgeInSceneEnv.mkOptions
                         (Some [source_obj_name; target_obj_name])
                         (Some (PutOnBridgeInSceneEnv.mkObjInit
                                  (PutOnBridgeInSceneEnv.episode_id
                                     (PutOnBridgeInSceneEnv.pop_obj_init_options
                                        options))
                                  (Some 0%Z) (Some 1%Z)
                                  (Some xy_config) (Some quat_config))))))) /\
    (xy_configs <> [] -> quat_configs <> [] ->
     forall e : Z,
       (0 <= (e mod (X * Q)) / Q < X)%Z /\
       (0 <= e mod Q < Q)%Z /\
       exists (x : XY) (q : Quat),
         nth_error xy_configs (Z.to_nat ((e mod (X * Q)) / Q)) = Some x /\
         nth_error quat_configs (Z.to_nat (e mod Q)) = Some q /\
         PutOnBridgeInSceneEnv.select_xy_config xy_configs quat_configs e
         = inr x /\
         PutOnBridgeInSceneEnv.select_quat_config quat_configs e = inr q) /\
    (xy_configs = [] \/ quat_configs = [] ->
     forall options : option (PutOnBridgeInSceneEnv.Options XY Quat),
       PutOnBridgeInSceneEnv.reset_options source_obj_name target_obj_name
         xy_configs quat_configs options
       = inl PutOnBridgeInSceneEnv.ZeroDivisionError) /\
    (forall e1 e2 k : Z,
        e1 = (e2 + k * (X * Q))%Z ->
        PutOnBridgeInSceneEnv.select_xy_config xy_configs quat_configs e1
        = PutOnBridgeInSceneEnv.select_xy_config xy_configs quat_configs e2 /\
        PutOnBridgeInSceneEnv.select_quat_config quat_configs e1
        = PutOnBridgeInSceneEnv.select_quat_config quat_configs e2).
Proof.
  intros XY Quat src tgt xy_configs quat_configs X Q.
  split; [repeat split|]. split; [reflexivity|]. split; [|split].
  - intros Hxy Hq e.
    pose proof (Grid.len_pos xy_configs Hxy) as HX.
    pose proof (Grid.len_pos quat_configs Hq) as HQ.
    fold X in HX. fold Q in HQ.
    pose proof (Grid.xy_index_in_range e X Q HX HQ) as Hi.
    assert (Hj : (0 <= e mod Q < Q)%Z) by (apply Z.mod_pos_bound; lia).
    destruct (Grid.py_index_in_range xy_configs _ Hi) as (x & Hx & Hpx).
    destruct (Grid.py_index_in_range quat_configs _ Hj) as (q & Hq' & Hpq).
    split; [exact Hi|]. split; [exact Hj|]. exists x, q.
    split; [exact Hx|]. split; [exact Hq'|].
    unfold PutOnBridgeInSceneEnv.select_xy_config,
      PutOnBridgeInSceneEnv.select_quat_config,
      PutOnBridgeInSceneEnv.py_mod, PutOnBridgeInSceneEnv.py_floordiv.
    fold X Q.
    replace (X * Q =? 0)%Z with false by (symmetry; apply Z.eqb_neq; nia).
    replace (Q =? 0)%Z with false by (symmetry; apply Z.eqb_neq; lia).
    simpl. split; assumption.
  - intros Hempty options.
    unfold PutOnBridgeInSceneEnv.reset_options,
      PutOnBridgeInSceneEnv.select_xy_config, PutOnBridgeInSceneEnv.py_mod.
    replace (PutOnBridgeInSceneEnv.len xy_configs
             * PutOnBridgeInSceneEnv.len quat_configs =? 0)%Z with true.
    + reflexivity.
    + symmetry. apply Z.eqb_eq.
      destruct Hempty as [-> | ->];
        unfold PutOnBridgeInSceneEnv.len; simpl; lia.
  - intros e1 e2 k. apply Grid.select_congruent.
Qed.

Lemma reset_selects_by_episode_id_witness :
  PutOnBridgeInSceneEnv.select_xy_config
    PutOnBridgeInSceneEnv.spoon_xy_configs
    PutOnBridgeInSceneEnv.spoon_quat_configs 5
  = inr (0%nat, 3%nat) /\
  PutOnBridgeInSceneEnv.select_quat_config
    PutOnBridgeInSceneEnv.spoon_quat_configs 5
  = inr PutOnBridgeInSceneEnv.YawHalfPi /\
  PutOnBridgeInSceneEnv.select_xy_config
    PutOnBridgeInSceneEnv.spoon_xy_configs
    PutOnBridgeInSceneEnv.spoon_quat_configs 29
  = PutOnBridgeInSceneEnv.select_xy_config
      PutOnBridgeInSceneEnv.spoon_xy_configs
      PutOnBridgeInSceneEnv.spoon_quat_configs 5 /\
  PutOnBridgeInSceneEnv.select_quat_config
    PutOnBridgeInSceneEnv.spoon_quat_configs (-19)
  = PutOnBridgeInSceneEnv.select_quat_config
      PutOnBridgeInSceneEnv.spoon_quat_configs 5.
Proof.
  destruct (reset_selects_by_episode_id _ _ "bridge_spoon_generated_modified"
              "table_cloth_generated"
              PutOnBridgeInSceneEnv.spoon_xy_configs
              PutOnBridgeInSceneEnv.spoon_quat_configs)
    as (_ & _ & Hsel & _ & Hcong).
  destruct (Hsel ltac:(discriminate) ltac:(discriminate) 5%Z)
    as (_ & _ & x & q & Hx & Hq & -> & ->).
  vm_compute in Hx. vm_compute in Hq.
  injection Hx as <-. injection Hq as <-.
  split; [reflexivity|]. split; [reflexivity|].
  split.
  - apply (proj1 (Hcong 29%Z 5%Z 1%Z ltac:(reflexivity))).
  - apply (proj2 (Hcong (-19)%Z 5%Z (-1)%Z ltac:(reflexivity))).
Defined.

(** ** Further properties of the grasp counter and the grasp statistics *)

Lemma grasp_run_snoc (gs : list bool) (g : bool) (c : Z) :
  grasp_run (gs ++ [g]) c = grasp_count g (grasp_run gs c).
Proof. rewrite grasp_run_app. reflexivity. Qed.

Lemma grasp_run_nonneg (gs : list bool) (c : Z) :
  (0 <= c)%Z -> (0 <= grasp_run gs c)%Z.
Proof.
  revert c. induction gs as [|g gs IH]; intros c Hc.
  - exact Hc.
  - change (grasp_run (g :: gs) c) with (grasp_run gs (grasp_count g c)).
    apply IH. destruct g; simpl; lia.
Qed.

Lemma grasp_run_trailing (gs : list bool) :
  grasp_run gs 0 = Z.of_nat (SceneOps.trailing_grasps gs).
Proof.
  unfold SceneOps.trailing_grasps.
  induction gs as [|g gs IH] using rev_ind.
  - reflexivity.
  - rewrite grasp_run_snoc, rev_unit, IH.
    destruct g; simpl; lia.
Qed.

Lemma trailing_grasps_le_length (gs : list bool) :
  (SceneOps.trailing_grasps gs <= List.length gs)%nat.
Proof.
  unfold SceneOps.trailing_grasps. rewrite <- (length_rev gs).
  induction (rev gs) as [|g l IH]; simpl; [lia|].
  destruct g; simpl; lia.
Qed.

(** X1.  Within an episode the counter is the number of grasped steps at the
    end of the steps taken so far; it is never negative and never exceeds
    the number of steps. *)
Theorem counter_counts_trailing_grasps :
  forall (scenes : list Scene) (self : Self),
    consecutive_grasp (run scenes (reset self))
    = Z.of_nat (SceneOps.trailing_grasps (map check_grasp scenes)) /\
    (0 <= consecutive_grasp (run scenes (reset self))
       <= Z.of_nat (List.length scenes))%Z.
Proof.
  intros scenes self.
  assert (H : consecutive_grasp (run scenes (reset self))
              = Z.of_nat (SceneOps.trailing_grasps (map check_grasp scenes))).
  { rewrite run_counter. apply grasp_run_trailing. }
  split; [exact H|]. rewrite H.
  pose proof (trailing_grasps_le_length (map check_grasp scenes)) as Hle.
  rewrite length_map in Hle. lia.
Qed.

(** X2.  In one step, [consecutive_grasp] is returned true only if
    [is_src_obj_grasped] is, whatever the counter held before; and from a
    reset on, the statistic [consecutive_grasp] is true only if the statistic
    [is_src_obj_grasped] is. *)
Theorem consecutive_grasp_implies_grasped :
  (forall (s : Scene) (self : Self),
      ret_consecutive_grasp (fst (evaluate s self)) = true ->
      ret_is_src_obj_grasped (fst (evaluate s self)) = true) /\
  (forall (scenes : list Scene) (self : Self),
      stats_consecutive_grasp (episode_stats (run scenes (reset self))) = true ->
      stats_is_src_obj_grasped (episode_stats (run scenes (reset self)))
      = true).
Proof.
  assert (Hstep : forall (s : Scene) (self : Self),
    ret_consecutive_grasp (fst (evaluate s self)) = true ->
    ret_is_src_obj_grasped (fst (evaluate s self)) = true).
  { intros s self. simpl. destruct (check_grasp s); [reflexivity|].
    simpl. discriminate. }
  split; [exact Hstep|].
  intros scenes self.
  induction scenes as [|s scenes IH] using rev_ind.
  - simpl. discriminate.
  - rewrite run_last.
    change (stats_consecutive_grasp
              (episode_stats (run scenes (reset self)))
            || ret_consecutive_grasp
                 (fst (evaluate s (run scenes (reset self)))) = true ->
            stats_is_src_obj_grasped
              (episode_stats (run scenes (reset self)))
            || ret_is_src_obj_grasped
                 (fst (evaluate s (run scenes (reset self)))) = true).
    intros H. apply orb_true_iff in H. apply orb_true_iff.
    destruct H as [H|H]; [left; now apply IH | right; now apply Hstep].
Qed.

Lemma consecutive_grasp_implies_grasped_witness :
  ret_is_src_obj_grasped
    (fst (evaluate Tabletop.spoon_held_over_cloth
            (mkSelf 4%Z (episode_stats Tabletop.fresh)))) = true.
Proof.
  apply (proj1 consecutive_grasp_implies_grasped). reflexivity.
Defined.

Lemma run_grasped_existsb (scenes : list Scene) (self : Self) :
  stats_is_src_obj_grasped (episode_stats (run scenes self))
  = stats_is_src_obj_grasped (episode_stats self)
    || existsb check_grasp scenes.
Proof.
  revert self. induction scenes as [|s scenes IH]; intros self.
  - simpl. now rewrite orb_false_r.
  - rewrite run_cons, IH. simpl. now rewrite orb_assoc.
Qed.

(** X3.  From a reset on, the statistic [is_src_obj_grasped] is true iff the
    source was grasped in at least one of the steps. *)
Theorem grasped_stat_is_any_step :
  forall (scenes : list Scene) (self : Self),
    stats_is_src_obj_grasped (episode_stats (run scenes (reset self)))
    = existsb check_grasp scenes.
Proof. intros scenes self. now rewrite run_grasped_existsb. Qed.

Lemma counter_ge_suffix (n : nat) (gs : list bool) :
  (Z.of_nat n <= grasp_run gs 0)%Z ->
  exists pre, gs = pre ++ repeat true n.
Proof.
  revert n. induction gs as [|g gs IH] using rev_ind; intros n H.
  - simpl in H. exists []. replace n with 0%nat by lia. reflexivity.
  - rewrite grasp_run_snoc in H. destruct n as [|m].
    + exists (gs ++ [g]). simpl. now rewrite app_nil_r.
    + destruct g; simpl in H; [|lia].
      destruct (IH m ltac:(lia)) as (pre & ->).
      exists pre. rewrite <- app_assoc. f_equal.
      now rewrite <- repeat_cons.
Qed.

Lemma run_flag_sets_stat (scenes : list Scene) (self : Self) :
  scenes <> [] ->
  grasp_flag (consecutive_grasp (run scenes self)) = true ->
  stats_consecutive_grasp (episode_stats (run scenes self)) = true.
Proof.
  intros Hne H. destruct (exists_last Hne) as (pre & s & ->).
  rewrite run_last in *. simpl in *. rewrite H. apply orb_true_r.
Qed.

(** X4.  From a reset on, the statistic [consecutive_grasp] is true iff the
    source was grasped in five steps in a row somewhere in the episode. *)
Theorem consecutive_stat_iff_five_in_a_row :
  forall (scenes : list Scene) (self : Self),
    stats_consecutive_grasp (episode_stats (run scenes (reset self))) = true
    <->
    exists pre post : list bool,
      map check_grasp scenes = pre ++ repeat true 5 ++ post.
Proof.
  intros scenes self. split.
  - induction scenes as [|s scenes IH] using rev_ind.
    + simpl. discriminate.
    + rewrite run_last. simpl. intros H. apply orb_true_iff in H.
      rewrite map_app. destruct H as [H|H].
      * destruct (IH H) as (pre & post & ->).
        exists pre, (post ++ map check_grasp [s]).
        now rewrite <- !app_assoc.
      * change (grasp_flag (consecutive_grasp
                  (snd (evaluate s (run scenes (reset self))))) = true) in H.
        rewrite <- run_last, run_counter, map_app in H.
        apply Z.leb_le in H.
        destruct (counter_ge_suffix 5 _ H) as (pre & ->).
        exists pre, []. reflexivity.
  - intros (pre & post & H).
    rewrite app_assoc in H. apply map_eq_app in H.
    destruct H as (front & back & -> & Hfront & _).
    rewrite run_app. apply run_consecutive_stays.
    apply run_flag_sets_stat.
    + intros ->. destruct pre; discriminate.
    + rewrite run_counter, Hfront, grasp_run_app, grasp_run_repeat_true.
      apply Z.leb_le.
      pose proof (grasp_run_nonneg pre 0 ltac:(lia)). simpl. lia.
Qed.

(** ** Further properties of the displacement classifier *)

(** X5.  [moved_wrong_obj] holds iff one single other object has moved both
    more than 0.03 and farther than the source: the two [any] of the source
    can always be met by the same object. *)
Theorem moved_wrong_by_one_object :
  forall s : Scene,
    moved_wrong_obj s = true <->
    Exists (fun x => 0.03 < x /\ source_obj_xy_move_dist s < x)
           (other_obj_xy_move_dist s).
Proof.
  intros s. rewrite moved_wrong_obj_iff, !Exists_exists. split.
  - intros [(x & Hx & Hx3) (y & Hy & Hys)].
    destruct (Rle_dec x y) as [Hxy|Hxy].
    + exists y. repeat split; [exact Hy | lra | exact Hys].
    + exists x. repeat split; [exact Hx | exact Hx3 | lra].
  - intros (x & Hx & Hx3 & Hxs). split; exists x; auto.
Qed.

Lemma other_dists_all_source (n : string) (l : list (Actor * vec3)) :
  (forall obj settle, In (obj, settle) l -> name obj = n) ->
  other_dists n l = [].
Proof.
  induction l as [|[obj settle] rest IH]; intros H; simpl.
  - reflexivity.
  - rewrite (H obj settle) by (now left). rewrite String.eqb_refl.
    apply IH. intros o st Hin. apply (H o st). now right.
Qed.

(** X6.  Only the objects that have a recorded settle position are looked
    at: the objects beyond the length of [episode_obj_xyzs_after_settle]
    never count.  With no settle position recorded, or with no tracked
    object but the source, [moved_wrong_obj] is false and
    [moved_correct_obj] says whether the source has moved more than 0.03. *)
Theorem displacement_ignores_untracked :
  forall s : Scene,
    other_obj_xy_move_dist s
    = other_dists (name (episode_source_obj s))
        (combine
           (firstn (List.length (episode_obj_xyzs_after_settle s))
                   (episode_objs s))
           (episode_obj_xyzs_after_settle s)) /\
    ((episode_obj_xyzs_after_settle s = [] \/
      forall obj, In obj (episode_objs s) ->
                  name obj = name (episode_source_obj s)) ->
     moved_wrong_obj s = false /\
     moved_correct_obj s = gtb (source_obj_xy_move_dist s) 0.03).
Proof.
  intros s. split.
  - unfold other_obj_xy_move_dist. now rewrite <- combine_firstn_r.
  - intros H.
    assert (E : other_obj_xy_move_dist s = []).
    { unfold other_obj_xy_move_dist. destruct H as [H|H].
      - rewrite H. now destruct (episode_objs s).
      - apply other_dists_all_source. intros obj settle Hin.
        apply H. eapply in_combine_l. exact Hin. }
    unfold moved_wrong_obj, moved_correct_obj. rewrite E. simpl.
    split; [reflexivity | apply andb_true_r].
Qed.

Lemma displacement_ignores_untracked_witness :
  moved_wrong_obj
    (mkScene [mkActor "spoon" (Vec3 0.05 0 0); mkActor "cloth" (Vec3 1 1 0)]
       [] (mkActor "spoon" (Vec3 0.05 0 0)) (mkActor "cloth" (Vec3 1 1 0))
       Tabletop.spoon_settle (Vec3 0.05 0 0) (Vec3 1 1 0)
       (Vec3 0.1 0.02 0.02) (Vec3 0.2 0.2 0.02) false [] [])
  = false.
Proof.
  apply (proj2 (displacement_ignores_untracked _)). left. reflexivity.
Defined.

(** ** Translation of the scene *)

Lemma xy_move_dist_translate (t a b : vec3) :
  xy_move_dist (add3 a t) (add3 b t) = xy_move_dist a b.
Proof.
  unfold xy_move_dist, sub2, xy, add3; simpl.
  f_equal. f_equal; ring.
Qed.

Lemma other_dists_translate (t : vec3) (n : string) (objs : list Actor)
    (settles : list vec3) :
  other_dists n
    (combine (map (SceneOps.translate_actor t) objs)
             (map (fun p => add3 p t) settles))
  = other_dists n (combine objs settles).
Proof.
  revert settles. induction objs as [|o objs IH]; intros [|p settles];
    simpl; try reflexivity.
  rewrite IH, xy_move_dist_translate. reflexivity.
Qed.

Lemma offset_translate (t : vec3) (s : Scene) :
  offset (SceneOps.translate t s) = offset s.
Proof.
  unfold offset, sub3, add3; simpl. f_equal; ring.
Qed.

(** X7.  Moving the whole scene by a vector, the settle positions with the
    current ones, changes neither what [evaluate] returns nor the state it
    leaves. *)
Theorem evaluate_translation_invariant :
  forall (t : vec3) (s : Scene) (self : Self),
    evaluate (SceneOps.translate t s) self = evaluate s self.
Proof.
  intros t s self.
  assert (Hsrc : source_obj_xy_move_dist (SceneOps.translate t s)
                 = source_obj_xy_move_dist s).
  { apply xy_move_dist_translate. }
  assert (Hoth : other_obj_xy_move_dist (SceneOps.translate t s)
                 = other_obj_xy_move_dist s).
  { apply other_dists_translate. }
  assert (Hc : moved_correct_obj (SceneOps.translate t s)
               = moved_correct_obj s).
  { unfold moved_correct_obj. now rewrite Hsrc, Hoth. }
  assert (Hw : moved_wrong_obj (SceneOps.translate t s) = moved_wrong_obj s).
  { unfold moved_wrong_obj. now rewrite Hsrc, Hoth. }
  assert (Hb : bbox_on_target (SceneOps.translate t s) = bbox_on_target s).
  { unfold bbox_on_target, xy_flag, z_flag.
    now rewrite (offset_translate t s). }
  unfold evaluate. rewrite Hc, Hw, Hb. reflexivity.
Qed.

(** ** What a success requires *)

(** X8.  When [evaluate] reports success, the source's centre is strictly
    above the target's and at most the two z half-lengths plus 0.02 above
    it, the xy offset is within the target's xy half-length norm less
    0.005, that norm is at least 0.005, and no contact vetoes. *)
Theorem success_requires :
  forall (s : Scene) (self : Self),
    ret_success (fst (evaluate s self)) = true ->
    0 < vz (offset s)
      <= vz (tgt_obj_half_length_bbox s) + vz (src_obj_half_length_bbox s)
         + 0.02 /\
    norm2 (xy (offset s)) + 0.005 <= norm2 (xy (tgt_obj_half_length_bbox s)) /\
    0.005 <= norm2 (xy (tgt_obj_half_length_bbox s)) /\
    forall c : Contact,
      In c (get_contacts s) ->
      vetoes (name (episode_source_obj s)) (ignore_actor_names s) c = false.
Proof.
  intros s self H.
  change (xy_flag s && z_flag s && contact_flag s = true) in H.
  apply andb_true_iff in H. destruct H as [H Hc].
  apply andb_true_iff in H. destruct H as [Hxy Hz].
  apply xy_flag_iff in Hxy. apply z_flag_iff in Hz.
  pose proof (norm2_nonneg (xy (offset s))) as Hn.
  split; [lra|]. split; [lra|]. split; [lra|].
  intros c Hin.
  destruct (vetoes _ _ c) eqn:E; [|reflexivity].
  assert (Hf : contact_flag s = false).
  { apply contact_loop_false_iff. exists c. auto. }
  congruence.
Qed.

Lemma success_requires_witness :
  0.005 <= norm2 (xy (tgt_obj_half_length_bbox Tabletop.spoon_on_cloth)).
Proof.
  apply (success_requires Tabletop.spoon_on_cloth Tabletop.fresh).
  change (bbox_on_target Tabletop.spoon_on_cloth
          && contact_flag Tabletop.spoon_on_cloth = true).
  destruct spoon_on_cloth_verdict as [-> ->]. reflexivity.
Defined.

(** ** Further properties of the contact filter *)


Lemma contact_loop_flag_eq (src_name : string) (ignore : list string)
    (cs cs' : list Contact) :
  ((exists c, In c cs /\ vetoes src_name ignore c = true) <->
   (exists c, In c cs' /\ vetoes src_name ignore c = true)) ->
  fst (contact_loop src_name ignore cs)
  = fst (contact_loop src_name ignore cs').
Proof.
  intros H.
  destruct (fst (contact_loop src_name ignore cs)) eqn:E;
    destruct (fst (contact_loop src_name ignore cs')) eqn:E';
    try reflexivity.
  - apply contact_loop_false_iff in E'. apply H in E'.
    apply contact_loop_false_iff in E'. congruence.
  - apply contact_loop_false_iff in E. apply H in E.
    apply contact_loop_false_iff in E. congruence.
Qed.

(** X9.  The verdict of the contact filter does not depend on the order in
    which the simulator lists the contacts, although the loop leaves at the
    first veto. *)
Theorem contact_flag_order_independent :
  forall (s : Scene) (contacts : list Contact),
    Permutation (get_contacts s) contacts ->
    contact_flag (SceneOps.with_contacts contacts s) = contact_flag s.
Proof.
  intros s contacts Hperm. unfold contact_flag.
  apply contact_loop_flag_eq. simpl.
  split; intros (c & Hin & Hv); exists c; split; try exact Hv.
  - eapply Permutation_in; [apply Permutation_sym; exact Hperm | exact Hin].
  - eapply Permutation_in; [exact Hperm | exact Hin].
Qed.

Lemma contact_flag_order_independent_witness :
  contact_flag
    (SceneOps.with_contacts
       [Tabletop.table_contact 0.7; Tabletop.gripper_contact;
        Tabletop.table_contact 0.5]
       Tabletop.spoon_dragged_on_table)
  = contact_flag Tabletop.spoon_dragged_on_table.
Proof.
  apply contact_flag_order_independent.
  change (get_contacts Tabletop.spoon_dragged_on_table)
    with [Tabletop.gripper_contact; Tabletop.table_contact 0.5;
          Tabletop.table_contact 0.7].
  apply Permutation_sym.
  apply (Permutation_cons_app [Tabletop.gripper_contact; Tabletop.table_contact 0.5] []).
  apply Permutation_refl.
Defined.

Lemma vetoes_swap (src_name : string) (ignore : list string) (c : Contact) :
  vetoes src_name ignore (SceneOps.swap_actors c) = vetoes src_name ignore c.
Proof.
  unfold vetoes, other_obj_contact_actor_name, SceneOps.swap_actors,
    contact_impulse; simpl.
  destruct (String.eqb_spec (actor0 c) src_name) as [E0|E0];
    destruct (String.eqb_spec (actor1 c) src_name) as [E1|E1];
    try reflexivity.
  now rewrite E0, E1.
Qed.

(** X10.  A contact counts the same whichever of its two actors is listed
    first: reporting every contact with its actors exchanged leaves the
    verdict of the filter unchanged. *)
Theorem contact_flag_actor_order_independent :
  forall (s : Scene) (c : Contact),
    vetoes (name (episode_source_obj s)) (ignore_actor_names s)
      (SceneOps.swap_actors c)
    = vetoes (name (episode_source_obj s)) (ignore_actor_names s) c /\
    contact_flag
      (SceneOps.with_contacts (map SceneOps.swap_actors (get_contacts s)) s)
    = contact_flag s.
Proof.
  intros s c. split; [apply vetoes_swap|].
  unfold contact_flag. apply contact_loop_flag_eq. simpl.
  split.
  - intros (c' & Hin & Hv). apply in_map_iff in Hin.
    destruct Hin as (c0 & <- & Hin0). exists c0. split; [exact Hin0|].
    now rewrite vetoes_swap in Hv.
  - intros (c' & Hin & Hv). exists (SceneOps.swap_actors c'). split.
    + now apply in_map.
    + now rewrite vetoes_swap.
Qed.

(** X11.  Contacts that do not involve the source, and contacts of the
    source with the target or with a robot link, never veto, however large
    their impulse: a scene all of whose contacts are of these kinds passes
    the filter, and removing such contacts from any scene leaves the verdict
    unchanged. *)
Theorem harmless_contacts_ignored :
  forall s : Scene,
    let src := name (episode_source_obj s) in
    let harmless (c : Contact) :=
      match other_obj_contact_actor_name src c with
      | None => true
      | Some other => name_in other (ignore_actor_names s)
      end in
    (forall c : Contact,
        harmless c = true -> vetoes src (ignore_actor_names s) c = false) /\
    (forallb harmless (get_contacts s) = true -> contact_flag s = true) /\
    contact_flag
      (SceneOps.with_contacts
         (filter (fun c => negb (harmless c)) (get_contacts s)) s)
    = contact_flag s.
Proof.
  intros s src harmless.
  assert (Hh : forall c : Contact,
    harmless c = true -> vetoes src (ignore_actor_names s) c = false).
  { intros c. unfold harmless, vetoes.
    destruct (other_obj_contact_actor_name src c) as [o|]; [|reflexivity].
    intros ->. reflexivity. }
  split; [exact Hh|]. split.
  - intros Hall. unfold contact_flag. fold src.
    rewrite contact_loop_no_veto; [reflexivity|].
    intros c Hin. apply Hh.
    rewrite forallb_forall in Hall. now apply Hall.
  - unfold contact_flag. apply contact_loop_flag_eq. simpl. fold src.
    split.
    + intros (c & Hin & Hv). apply filter_In in Hin. exists c. tauto.
    + intros (c & Hin & Hv). exists c. split; [|exact Hv].
      apply filter_In. split; [exact Hin|].
      destruct (harmless c) eqn:E; [|reflexivity].
      rewrite (Hh c E) in Hv. discriminate.
Qed.

Lemma harmless_contacts_ignored_witness :
  contact_flag Tabletop.spoon_held_over_cloth = true.
Proof.
  apply (proj1 (proj2 (harmless_contacts_ignored
                         Tabletop.spoon_held_over_cloth))).
  reflexivity.
Defined.

(** ** Further properties of the placement grid selection *)

Lemma py_index_nth_error {A : Type} (l : list A) (i : nat) (a : A) :
  nth_error l i = Some a ->
  PutOnBridgeInSceneEnv.py_index l (Z.of_nat i) = inr a.
Proof.
  intros H. unfold PutOnBridgeInSceneEnv.py_index.
  replace (Z.of_nat i <? 0)%Z with false by (symmetry; apply Z.ltb_ge; lia).
  replace (Z.of_nat i <? 0)%Z with false by (symmetry; apply Z.ltb_ge; lia).
  now rewrite Nat2Z.id, H.
Qed.

Lemma nth_error_lt_len {A : Type} (l : list A) (i : nat) (a : A) :
  nth_error l i = Some a -> (Z.of_nat i < PutOnBridgeInSceneEnv.len l)%Z.
Proof.
  intros H. unfold PutOnBridgeInSceneEnv.len.
  assert (i < List.length l)%nat by (apply nth_error_Some; congruence). lia.
Qed.

Lemma select_by_index {XY Quat : Type} (xy_configs : list XY)
    (quat_configs : list Quat) (e : Z) :
  (0 < PutOnBridgeInSceneEnv.len xy_configs)%Z ->
  (0 < PutOnBridgeInSceneEnv.len quat_configs)%Z ->
  exists (x : XY) (q : Quat),
    nth_error xy_configs
      (Z.to_nat ((e mod (PutOnBridgeInSceneEnv.len xy_configs
                         * PutOnBridgeInSceneEnv.len quat_configs))
                 / PutOnBridgeInSceneEnv.len quat_configs)) = Some x /\
    nth_error quat_configs
      (Z.to_nat (e mod PutOnBridgeInSceneEnv.len quat_configs)) = Some q /\
    PutOnBridgeInSceneEnv.select_xy_config xy_configs quat_configs e = inr x /\
    PutOnBridgeInSceneEnv.select_quat_config quat_configs e = inr q.
Proof.
  intros HX HQ.
  pose proof (Grid.xy_index_in_range e _ _ HX HQ) as Hi.
  assert (Hj : (0 <= e mod PutOnBridgeInSceneEnv.len quat_configs
                < PutOnBridgeInSceneEnv.len quat_configs)%Z)
    by (apply Z.mod_pos_bound; lia).
  destruct (Grid.py_index_in_range xy_configs _ Hi) as (x & Hx & Hpx).
  destruct (Grid.py_index_in_range quat_configs _ Hj) as (q & Hq & Hpq).
  exists x, q. split; [exact Hx|]. split; [exact Hq|].
  unfold PutOnBridgeInSceneEnv.select_xy_config,
    PutOnBridgeInSceneEnv.select_quat_config,
    PutOnBridgeInSceneEnv.py_mod, PutOnBridgeInSceneEnv.py_floordiv.
  replace (PutOnBridgeInSceneEnv.len xy_configs
           * PutOnBridgeInSceneEnv.len quat_configs =? 0)%Z
    with false by (symmetry; apply Z.eqb_neq; nia).
  replace (PutOnBridgeInSceneEnv.len quat_configs =? 0)%Z
    with false by (symmetry; apply Z.eqb_neq; lia).
  simpl. split; assumption.
Qed.

(** X12.  Every pair of an xy configuration and a rotation configuration is
    reached: the pair at positions [i] and [j] of the two tables is the one
    selected for the episode id [i * len quat + j], and for every id that
    differs from it by a multiple of [len xy * len quat]. *)
Theorem every_pair_has_an_episode_id :
  forall (XY Quat : Type) (xy_configs : list XY) (quat_configs : list Quat)
         (i j : nat) (x : XY) (q : Quat) (k : Z),
    nth_error xy_configs i = Some x ->
    nth_error quat_configs j = Some q ->
    let e := (Z.of_nat i * PutOnBridgeInSceneEnv.len quat_configs
              + Z.of_nat j
              + k * (PutOnBridgeInSceneEnv.len xy_configs
                     * PutOnBridgeInSceneEnv.len quat_configs))%Z in
    PutOnBridgeInSceneEnv.select_xy_config xy_configs quat_configs e = inr x /\
    PutOnBridgeInSceneEnv.select_quat_config quat_configs e = inr q.
Proof.
  intros XY Quat xy_configs quat_configs i j x q k Hx Hq e.
  pose proof (nth_error_lt_len _ _ _ Hx) as Hi.
  pose proof (nth_error_lt_len _ _ _ Hq) as Hj.
  set (X := PutOnBridgeInSceneEnv.len xy_configs) in *.
  set (Q := PutOnBridgeInSceneEnv.len quat_configs) in *.
  assert (Hsmall : (0 <= Z.of_nat i * Q + Z.of_nat j < X * Q)%Z) by nia.
  assert (E1 : (e mod (X * Q) = Z.of_nat i * Q + Z.of_nat j)%Z).
  { unfold e. rewrite Z_mod_plus_full. now apply Z.mod_small. }
  assert (E2 : ((Z.of_nat i * Q + Z.of_nat j) / Q = Z.of_nat i)%Z).
  { rewrite Z.div_add_l by lia. rewrite Z.div_small by lia. lia. }
  assert (E3 : (e mod Q = Z.of_nat j)%Z).
  { unfold e.
    replace (Z.of_nat i * Q + Z.of_nat j + k * (X * Q))%Z
      with (Z.of_nat j + (Z.of_nat i + k * X) * Q)%Z by ring.
    rewrite Z_mod_plus_full. apply Z.mod_small. lia. }
  unfold PutOnBridgeInSceneEnv.select_xy_config,
    PutOnBridgeInSceneEnv.select_quat_config,
    PutOnBridgeInSceneEnv.py_mod, PutOnBridgeInSceneEnv.py_floordiv.
  fold X Q.
  replace (X * Q =? 0)%Z with false by (symmetry; apply Z.eqb_neq; nia).
  replace (Q =? 0)%Z with false by (symmetry; apply Z.eqb_neq; lia).
  simpl. rewrite E1, E2, E3.
  split; now apply py_index_nth_error.
Qed.

Lemma every_pair_has_an_episode_id_witness :
  PutOnBridgeInSceneEnv.select_xy_config
    PutOnBridgeInSceneEnv.spoon_xy_configs
    PutOnBridgeInSceneEnv.spoon_quat_configs (-1)
  = inr (3%nat, 2%nat) /\
  PutOnBridgeInSceneEnv.select_quat_config
    PutOnBridgeInSceneEnv.spoon_quat_configs (-1)
  = inr PutOnBridgeInSceneEnv.YawHalfPi.
Proof.
  apply (every_pair_has_an_episode_id _ _
           PutOnBridgeInSceneEnv.spoon_xy_configs
           PutOnBridgeInSceneEnv.spoon_quat_configs 11 1
           (3%nat, 2%nat) PutOnBridgeInSceneEnv.YawHalfPi (-1)%Z);
    reflexivity.
Defined.

(** X13.  With tables free of duplicates, two episode ids within one period
    [0 .. len xy * len quat - 1] that select the same xy configuration and
    the same rotation configuration are the same id. *)
Theorem distinct_ids_select_distinct_pairs :
  forall (XY Quat : Type) (xy_configs : list XY) (quat_configs : list Quat)
         (e1 e2 : Z),
    NoDup xy_configs -> NoDup quat_configs ->
    (0 <= e1 < PutOnBridgeInSceneEnv.len xy_configs
              * PutOnBridgeInSceneEnv.len quat_configs)%Z ->
    (0 <= e2 < PutOnBridgeInSceneEnv.len xy_configs
              * PutOnBridgeInSceneEnv.len quat_configs)%Z ->
    PutOnBridgeInSceneEnv.select_xy_config xy_configs quat_configs e1
    = PutOnBridgeInSceneEnv.select_xy_config xy_configs quat_configs e2 ->
    PutOnBridgeInSceneEnv.select_quat_config quat_configs e1
    = PutOnBridgeInSceneEnv.select_quat_config quat_configs e2 ->
    e1 = e2.
Proof.
  intros XY Quat xy_configs quat_configs e1 e2 Hnx Hnq H1 H2 Hxy Hq.
  set (X := PutOnBridgeInSceneEnv.len xy_configs) in *.
  set (Q := PutOnBridgeInSceneEnv.len quat_configs) in *.
  assert (HX0 : (0 <= X)%Z) by (unfold X, PutOnBridgeInSceneEnv.len; lia).
  assert (HQ0 : (0 <= Q)%Z) by (unfold Q, PutOnBridgeInSceneEnv.len; lia).
  assert (HX : (0 < X)%Z) by nia.
  assert (HQ : (0 < Q)%Z) by nia.
  destruct (select_by_index xy_configs quat_configs e1 HX HQ)
    as (x1 & q1 & Hx1 & Hq1 & Sx1 & Sq1).
  destruct (select_by_index xy_configs quat_configs e2 HX HQ)
    as (x2 & q2 & Hx2 & Hq2 & Sx2 & Sq2).
  fold X Q in Hx1, Hq1, Hx2, Hq2.
  rewrite Sx1, Sx2 in Hxy. rewrite Sq1, Sq2 in Hq.
  injection Hxy as <-. injection Hq as <-.
  rewrite (Z.mod_small e1) in Hx1 by lia.
  rewrite (Z.mod_small e2) in Hx2 by lia.
  pose proof (Z.div_pos e1 Q ltac:(lia) HQ) as D1.
  pose proof (Z.div_pos e2 Q ltac:(lia) HQ) as D2.
  pose proof (Z.mod_pos_bound e1 Q HQ) as M1.
  pose proof (Z.mod_pos_bound e2 Q HQ) as M2.
  assert (Ei : Z.to_nat (e1 / Q) = Z.to_nat (e2 / Q)).
  { apply (proj1 (NoDup_nth_error xy_configs) Hnx).
    - apply nth_error_Some. congruence.
    - congruence. }
  assert (Ej : Z.to_nat (e1 mod Q) = Z.to_nat (e2 mod Q)).
  { apply (proj1 (NoDup_nth_error quat_configs) Hnq).
    - apply nth_error_Some. congruence.
    - congruence. }
  rewrite (Z.div_mod e1 Q) by lia. rewrite (Z.div_mod e2 Q) by lia.
  assert (e1 / Q = e2 / Q)%Z by lia.
  assert (e1 mod Q = e2 mod Q)%Z by lia.
  congruence.
Qed.

Lemma distinct_ids_select_distinct_pairs_witness :
  NoDup PutOnBridgeInSceneEnv.spoon_xy_configs /\
  NoDup PutOnBridgeInSceneEnv.spoon_quat_configs /\
  5%Z = 5%Z.
Proof.
  assert (Hx : NoDup PutOnBridgeInSceneEnv.spoon_xy_configs).
  { repeat (constructor; [simpl; intuition discriminate|]). constructor. }
  assert (Hq : NoDup PutOnBridgeInSceneEnv.spoon_quat_configs).
  { repeat (constructor; [simpl; intuition discriminate|]). constructor. }
  split; [exact Hx|]. split; [exact Hq|].
  apply (distinct_ids_select_distinct_pairs _ _
           PutOnBridgeInSceneEnv.spoon_xy_configs
           PutOnBridgeInSceneEnv.spoon_quat_configs 5%Z 5%Z Hx Hq).
  - vm_compute. split; discriminate || reflexivity.
  - vm_compute. split; discriminate || reflexivity.
  - reflexivity.
  - reflexivity.
Defined.

Lemma reset_options_ok {XY Quat : Type} (src tgt : string)
    (xy_configs : list XY) (quat_configs : list Quat)
    (options : option (PutOnBridgeInSceneEnv.Options XY Quat)) :
  (0 < PutOnBridgeInSceneEnv.len xy_configs)%Z ->
  (0 < PutOnBridgeInSceneEnv.len quat_configs)%Z ->
  exists (x : XY) (q : Quat),
    In x xy_configs /\ In q quat_configs /\
    PutOnBridgeInSceneEnv.reset_options src tgt xy_configs quat_configs
      options
    = inr (PutOnBridgeInSceneEnv.mkOptions (Some [src; tgt])
             (Some (PutOnBridgeInSceneEnv.mkObjInit
                      (PutOnBridgeInSceneEnv.episode_id
                         (PutOnBridgeInSceneEnv.pop_obj_init_options options))
                      (Some 0%Z) (Some 1%Z) (Some x) (Some q)))).
Proof.
  intros HX HQ.
  destruct (select_by_index xy_configs quat_configs
              (PutOnBridgeInSceneEnv.episode_id_of options) HX HQ)
    as (x & q & Hx & Hq & Sx & Sq).
  exists x, q.
  split; [eapply nth_error_In; exact Hx|].
  split; [eapply nth_error_In; exact Hq|].
  unfold PutOnBridgeInSceneEnv.reset_options.
  unfold PutOnBridgeInSceneEnv.episode_id_of in Sx, Sq.
  rewrite Sx. simpl. rewrite Sq. reflexivity.
Qed.

(** X14.  With both tables non-empty [reset] raises for no [options] and no
    episode id, negative ones included.  The options it passes on name the
    environment's source and target as the two models, give them the ids 0
    and 1 and carry an xy configuration and a rotation configuration of the
    tables, whatever the caller had put under these keys; the caller's
    [episode_id] entry is left as it was. *)
Theorem reset_overrides_caller_options :
  forall (XY Quat : Type) (src tgt : string)
         (xy_configs : list XY) (quat_configs : list Quat)
         (options : option (PutOnBridgeInSceneEnv.Options XY Quat)),
    xy_configs <> [] -> quat_configs <> [] ->
    exists (x : XY) (q : Quat),
      In x xy_configs /\ In q quat_configs /\
      PutOnBridgeInSceneEnv.reset_options src tgt xy_configs quat_configs
        options
      = inr (PutOnBridgeInSceneEnv.mkOptions (Some [src; tgt])
               (Some (PutOnBridgeInSceneEnv.mkObjInit
                        (PutOnBridgeInSceneEnv.episode_id
                           (PutOnBridgeInSceneEnv.pop_obj_init_options
                              options))
                        (Some 0%Z) (Some 1%Z) (Some x) (Some q)))).
Proof.
  intros XY Quat src tgt xy_configs quat_configs options Hx Hq.
  apply reset_options_ok; now apply Grid.len_pos.
Qed.

Lemma reset_overrides_caller_options_witness :
  PutOnBridgeInSceneEnv.reset_options "green_cube_3cm" "yellow_cube_3cm"
    PutOnBridgeInSceneEnv.spoon_xy_configs
    PutOnBridgeInSceneEnv.spoon_quat_configs
    (Some (PutOnBridgeInSceneEnv.mkOptions (Some ["a"; "b"; "c"]%string)
             (Some (PutOnBridgeInSceneEnv.mkObjInit (Some (-19)%Z)
                      (Some 7%Z) (Some 7%Z) (Some (9%nat, 9%nat)) None))))
  = inr (PutOnBridgeInSceneEnv.mkOptions
           (Some ["green_cube_3cm"; "yellow_cube_3cm"]%string)
           (Some (PutOnBridgeInSceneEnv.mkObjInit (Some (-19)%Z)
                    (Some 0%Z) (Some 1%Z) (Some (0%nat, 3%nat))
                    (Some PutOnBridgeInSceneEnv.YawHalfPi)))).
Proof.
  destruct (reset_overrides_caller_options _ _
              "green_cube_3cm" "yellow_cube_3cm"
              PutOnBridgeInSceneEnv.spoon_xy_configs
              PutOnBridgeInSceneEnv.spoon_quat_configs
              (Some (PutOnBridgeInSceneEnv.mkOptions
                       (Some ["a"; "b"; "c"]%string)
                       (Some (PutOnBridgeInSceneEnv.mkObjInit (Some (-19)%Z)
                                (Some 7%Z) (Some 7%Z)
                                (Some (9%nat, 9%nat)) None))))
              ltac:(discriminate) ltac:(discriminate))
    as (x & q & _ & _ & _).
  reflexivity.
Defined.

(** ** [_set_model] *)

Lemma index_spec (l : list string) (x : string) :
  match SetModel.index l x with
  | Some i =>
      (0 <= i < Z.of_nat (List.length l))%Z /\
      nth_error l (Z.to_nat i) = Some x /\
      forall j : nat, (Z.of_nat j < i)%Z -> nth_error l j <> Some x
  | None => ~ In x l
  end.
Proof.
  induction l as [|y rest IH]; simpl.
  - tauto.
  - destruct (String.eqb_spec y x) as [E|E].
    + subst. split; [lia|]. split; [reflexivity|]. intros j Hj. lia.
    + destruct (SetModel.index rest x) as [i|]; simpl.
      * destruct IH as (Hr & Hn & Hfirst).
        split; [lia|]. split.
        -- replace (Z.to_nat (Z.succ i)) with (S (Z.to_nat i)) by lia.
           exact Hn.
        -- intros [|j] Hj; simpl; [congruence|]. apply Hfirst. lia.
      * intros [H|H]; [contradiction | now apply IH].
Qed.

(** X15.  [_set_model] hands on the [model_ids] it is given unchanged.
    Without them it raises [ValueError] exactly when the drawn source is not
    among [self.model_ids] (so always for an empty list) and never divides
    by zero; otherwise it hands on the drawn source's name and, for the
    target, not a name but the integer [(i + 1) mod n], where [i] is the
    first position of the source in [self.model_ids] and [n] their number:
    a valid position, the one after the source's, the first after the
    last, and the source's own position only when there is a single
    model. *)
Theorem set_model_target_follows_source :
  forall (self_model_ids : list string) (src_model_id : string),
    let n := Z.of_nat (List.length self_model_ids) in
    (forall ids : list SetModel.model_ref,
        SetModel._set_model self_model_ids src_model_id (Some ids)
        = inr ids) /\
    SetModel._set_model self_model_ids src_model_id None
    <> inl SetModel.ZeroDivisionError /\
    (SetModel._set_model self_model_ids src_model_id None
     = inl SetModel.ValueError <-> ~ In src_model_id self_model_ids) /\
    (In src_model_id self_model_ids ->
     exists i : Z,
       SetModel.index self_model_ids src_model_id = Some i /\
       nth_error self_model_ids (Z.to_nat i) = Some src_model_id /\
       (0 <= i < n)%Z /\
       SetModel._set_model self_model_ids src_model_id None
       = inr [SetModel.Name src_model_id;
              SetModel.Index ((i + 1) mod n)%Z] /\
       (0 <= (i + 1) mod n < n)%Z /\
       ((i + 1 < n)%Z -> ((i + 1) mod n = i + 1)%Z) /\
       ((i + 1 = n)%Z -> ((i + 1) mod n = 0)%Z) /\
       (((i + 1) mod n = i)%Z <-> n = 1%Z)).
Proof.
  intros ids src n.
  pose proof (index_spec ids src) as Hspec.
  unfold SetModel._set_model. fold n.
  destruct (SetModel.index ids src) as [i|] eqn:E.
  - destruct Hspec as (Hr & Hn & _). fold n in Hr.
    assert (Hin : In src ids) by (eapply nth_error_In; exact Hn).
    replace (n =? 0)%Z with false by (symmetry; apply Z.eqb_neq; lia).
    split; [reflexivity|]. split; [discriminate|]. split.
    + split; [discriminate | intros H; contradiction].
    + intros _. exists i. split; [reflexivity|]. split; [exact Hn|].
      split; [exact Hr|]. split; [reflexivity|].
      assert (Hsmall : (i + 1 < n -> (i + 1) mod n = i + 1)%Z)
        by (intros H; apply Z.mod_small; lia).
      assert (Hwrap : (i + 1 = n -> (i + 1) mod n = 0)%Z)
        by (intros ->; apply Z_mod_same_full).
      split; [apply Z.mod_pos_bound; lia|].
      split; [exact Hsmall|]. split; [exact Hwrap|].
      destruct (Z.eq_dec (i + 1) n) as [Hl|Hl].
      * rewrite (Hwrap Hl). lia.
      * rewrite Hsmall by lia. lia.
  - split; [reflexivity|]. split; [discriminate|]. split.
    + split; [intros _; exact Hspec | reflexivity].
    + intros Hin. contradiction.
Qed.

Lemma set_model_target_follows_source_witness :
  SetModel._set_model ["apple"; "can"; "sponge"]%string "sponge"%string None
  = inr [SetModel.Name "sponge"; SetModel.Index 0].
Proof.
  destruct (set_model_target_follows_source
              ["apple"; "can"; "sponge"]%string "sponge"%string)
    as (_ & _ & _ & H).
  destruct (H ltac:(simpl; auto)) as (i & Hi & _ & _ & -> & _).
  vm_compute in Hi. injection Hi as <-. reflexivity.
Defined.

(** ** [_load_model] *)

Lemma load_loop_ok (model_db : list (string * LoadModel.ModelInfo))
    (todo : list (string * R)) (acc : list LoadModel.Built) :
  (forall p, In p todo -> LoadModel.lookup model_db (fst p) <> None) ->
  exists objs : list LoadModel.Built,
    LoadModel.load_loop model_db todo acc = (inr tt, acc ++ objs) /\
    map LoadModel.built_name objs = map fst todo /\
    map LoadModel.built_model_id objs = map fst todo /\
    map LoadModel.built_scale objs = map snd todo /\
    Forall (fun b =>
              exists info,
                LoadModel.lookup model_db (LoadModel.built_model_id b)
                = Some info /\
                LoadModel.built_density b = LoadModel.get_density info) objs.
Proof.
  revert acc. induction todo as [|[id sc] rest IH]; intros acc H; simpl.
  - exists []. rewrite app_nil_r. repeat split. constructor.
  - destruct (LoadModel.lookup model_db id) as [info|] eqn:E.
    + destruct (IH (acc ++ [LoadModel.mkBuilt id id sc
                              (LoadModel.get_density info)]))
        as (objs & Hrun & Hn & Hm & Hs & Hd).
      { intros p Hp. apply H. now right. }
      exists (LoadModel.mkBuilt id id sc (LoadModel.get_density info) :: objs).
      rewrite Hrun, <- app_assoc. simpl. rewrite Hn, Hm, Hs.
      repeat split. constructor; [|exact Hd]. exists info. auto.
    + exfalso. apply (H (id, sc)); [now left | exact E].
Qed.

Lemma load_loop_fails (model_db : list (string * LoadModel.ModelInfo))
    (pre : list (string * R)) (model_id : string) (model_scale : R)
    (post : list (string * R)) (acc : list LoadModel.Built) :
  (forall p, In p pre -> LoadModel.lookup model_db (fst p) <> None) ->
  LoadModel.lookup model_db model_id = None ->
  exists objs : list LoadModel.Built,
    LoadModel.load_loop model_db (pre ++ (model_id, model_scale) :: post) acc
    = (inl LoadModel.KeyError, acc ++ objs) /\
    map LoadModel.built_name objs = map fst pre.
Proof.
  revert acc. induction pre as [|[id sc] rest IH]; intros acc H Hmiss; simpl.
  - rewrite Hmiss. exists []. now rewrite app_nil_r.
  - destruct (LoadModel.lookup model_db id) as [info|] eqn:E.
    + destruct (IH (acc ++ [LoadModel.mkBuilt id id sc
                              (LoadModel.get_density info)]))
        as (objs & Hrun & Hn).
      { intros p Hp. apply H. now right. }
      { exact Hmiss. }
      exists (LoadModel.mkBuilt id id sc (LoadModel.get_density info) :: objs).
      rewrite Hrun, <- app_assoc. simpl. now rewrite Hn.
    + exfalso. apply (H (id, sc)); [now left | exact E].
Qed.

(** X16.  When every model of the zipped ids and scales is in the database,
    [_load_model] succeeds and replaces [self.episode_objs], whatever it
    held, by one actor per pair, in order: as many as the shorter of the
    two lists, each named by its model id, built at its scale and at the
    density recorded for the model, or 1000 when none is recorded. *)
Theorem load_model_builds_in_order :
  forall (model_db : list (string * LoadModel.ModelInfo))
         (episode_model_ids : list string) (episode_model_scales : list R)
         (old : list LoadModel.Built),
    (forall p, In p (combine episode_model_ids episode_model_scales) ->
               LoadModel.lookup model_db (fst p) <> None) ->
    exists objs : list LoadModel.Built,
      LoadModel._load_model model_db episode_model_ids episode_model_scales
        old
      = (inr tt, objs) /\
      List.length objs
      = Nat.min (List.length episode_model_ids)
                (List.length episode_model_scales) /\
      map LoadModel.built_name objs
      = firstn (List.length episode_model_scales) episode_model_ids /\
      map LoadModel.built_scale objs
      = firstn (List.length episode_model_ids) episode_model_scales /\
      Forall (fun b =>
                LoadModel.built_name b = LoadModel.built_model_id b /\
                exists info,
                  LoadModel.lookup model_db (LoadModel.built_model_id b)
                  = Some info /\
                  LoadModel.built_density b
                  = match LoadModel.info_density info with
                    | Some d => d
                    | None => 1000
                    end) objs.
Proof.
  intros db ids scales old H.
  destruct (load_loop_ok db (combine ids scales) [] H)
    as (objs & Hrun & Hn & Hm & Hs & Hd).
  exists objs. split; [exact Hrun|]. split; [|split; [|split]].
  - rewrite <- (length_map LoadModel.built_name), Hn, length_map.
    apply length_combine.
  - rewrite Hn. clear. revert scales.
    induction ids as [|i ids IH]; intros [|s scales]; simpl;
      try reflexivity.
    now rewrite IH.
  - rewrite Hs. clear. revert scales.
    induction ids as [|i ids IH]; intros [|s scales]; simpl;
      try reflexivity.
    now rewrite IH.
  - assert (Hnm : forall b, In b objs ->
              LoadModel.built_name b = LoadModel.built_model_id b).
    { clear - Hn Hm. revert Hn Hm.
      generalize (map fst (combine ids scales)). intros l.
      revert l. induction objs as [|b objs IH]; intros l Hn Hm b' Hin.
      - destruct Hin.
      - destruct l as [|x l]; [discriminate|]. simpl in Hn, Hm.
        injection Hn as Hb Hn. injection Hm as Hb' Hm.
        destruct Hin as [<-|Hin]; [congruence | now apply (IH l)]. }
    rewrite Forall_forall in *. intros b Hb. split; [now apply Hnm|].
    destruct (Hd b Hb) as (info & Hl & Hden). exists info. split; [exact Hl|].
    exact Hden.
Qed.

Lemma load_model_builds_in_order_witness :
  exists objs : list LoadModel.Built,
    LoadModel._load_model
      [("green_cube_3cm"%string, LoadModel.mkInfo None);
       ("yellow_cube_3cm"%string, LoadModel.mkInfo (Some 500))]
      ["green_cube_3cm"; "yellow_cube_3cm"]%string [1; 1; 1] []
    = (inr tt, objs) /\
    List.length objs = 2%nat.
Proof.
  destruct (load_model_builds_in_order
              [("green_cube_3cm"%string, LoadModel.mkInfo None);
               ("yellow_cube_3cm"%string, LoadModel.mkInfo (Some 500))]
              ["green_cube_3cm"; "yellow_cube_3cm"]%string [1; 1; 1] [])
    as (objs & Hrun & Hlen & _).
  - intros p [<-|[<-|[]]]; simpl; discriminate.
  - exists objs. split; [exact Hrun | exact Hlen].
Defined.

(** X17.  When a model of the zipped ids and scales is missing from the
    database, [_load_model] raises [KeyError] at the first such model and
    leaves in [self.episode_objs] the actors built for the models before
    it, and nothing of what the list held before the call. *)
Theorem load_model_stops_at_missing_model :
  forall (model_db : list (string * LoadModel.ModelInfo))
         (episode_model_ids : list string) (episode_model_scales : list R)
         (old : list LoadModel.Built)
         (pre : list (string * R)) (model_id : string) (model_scale : R)
         (post : list (string * R)),
    combine episode_model_ids episode_model_scales
    = pre ++ (model_id, model_scale) :: post ->
    (forall p, In p pre -> LoadModel.lookup model_db (fst p) <> None) ->
    LoadModel.lookup model_db model_id = None ->
    exists objs : list LoadModel.Built,
      LoadModel._load_model model_db episode_model_ids episode_model_scales
        old
      = (inl LoadModel.KeyError, objs) /\
      map LoadModel.built_name objs = map fst pre.
Proof.
  intros db ids scales old pre id sc post Hzip Hpre Hmiss.
  unfold LoadModel._load_model. rewrite Hzip.
  destruct (load_loop_fails db pre id sc post [] Hpre Hmiss)
    as (objs & Hrun & Hn).
  exists objs. split; [exact Hrun | exact Hn].
Qed.

Lemma load_model_stops_at_missing_model_witness :
  exists objs : list LoadModel.Built,
    LoadModel._load_model
      [("green_cube_3cm"%string, LoadModel.mkInfo None)]
      ["green_cube_3cm"; "yellow_cube_3cm"]%string [1; 1]
      [LoadModel.mkBuilt "stale" "stale" 1 1000]
    = (inl LoadModel.KeyError, objs) /\
    map LoadModel.built_name objs = ["green_cube_3cm"%string].
Proof.
  apply (load_model_stops_at_missing_model _ _ _ _
           [("green_cube_3cm"%string, 1)] "yellow_cube_3cm"%string 1 []).
  - reflexivity.
  - intros p [<-|[]]; simpl; discriminate.
  - reflexivity.
Defined.

(** ** The grids of the registered environments *)

Lemma grid_pairs_far (c : vec2) (hx hy : R) (p : vec2 * vec2) :
  0 < hx -> 0 < hy ->
  In p (Registered.grid_pairs (Registered.grid_pos c hx hy)) ->
  In (fst p) (Registered.grid_pos c hx hy) /\
  In (snd p) (Registered.grid_pos c hx hy) /\
  2 * Rmin hx hy <= norm2 (sub2 (fst p) (snd p)).
Proof.
  intros Hx Hy Hin. destruct c as [cx cy].
  assert (Hm : 0 < Rmin hx hy <= hx /\ Rmin hx hy <= hy).
  { unfold Rmin. destruct (Rle_dec hx hy); lra. }
  set (m := Rmin hx hy) in *.
  cbv [Registered.grid_pairs Registered.grid_pos Registered.enumerate
       map List.length seq combine flat_map app Nat.eqb negb fst snd] in Hin.
  cbv [Registered.grid_pos map fst snd].
  repeat (destruct Hin as [Hin|Hin];
          [subst p; cbv [fst snd sub2];
           split; [simpl; tauto|]; split; [simpl; tauto|];
           apply le_norm2; [lra | nra] |]).
  destruct Hin.
Qed.

Lemma grid_pairs_length (c : vec2) (hx hy : R) :
  List.length (Registered.grid_pairs (Registered.grid_pos c hx hy)) = 12%nat.
Proof. reflexivity. Qed.

Lemma In_enumerate_from {A : Type} (g : list A) (k i : nat) (x : A) :
  In (i, x) (combine (seq k (List.length g)) g) <->
  (k <= i)%nat /\ nth_error g (i - k) = Some x.
Proof.
  revert k. induction g as [|a g IH]; intros k; simpl.
  - split; [tauto|]. intros [_ H]. destruct (i - k)%nat; discriminate.
  - rewrite IH. split.
    + intros [H|[Hle Hn]].
      * injection H as -> ->. split; [lia|]. now rewrite Nat.sub_diag.
      * split; [lia|].
        replace (i - k)%nat with (S (i - S k)) by lia. exact Hn.
    + intros [Hle Hn]. destruct (Nat.eq_dec i k) as [->|Hne].
      * rewrite Nat.sub_diag in Hn. simpl in Hn. injection Hn as ->.
        now left.
      * right. split; [lia|].
        replace (i - k)%nat with (S (i - S k)) in Hn by lia. exact Hn.
Qed.

Lemma In_enumerate {A : Type} (g : list A) (i : nat) (x : A) :
  In (i, x) (Registered.enumerate g) <-> nth_error g i = Some x.
Proof.
  unfold Registered.enumerate. rewrite In_enumerate_from, Nat.sub_0_r.
  split; [tauto | intros H; split; [lia | exact H]].
Qed.

Lemma In_grid_pairs (grid : list vec2) (p : vec2 * vec2) :
  In p (Registered.grid_pairs grid) <->
  exists i j : nat,
    i <> j /\ nth_error grid i = Some (fst p) /\
    nth_error grid j = Some (snd p).
Proof.
  unfold Registered.grid_pairs. rewrite in_flat_map. split.
  - intros ([i g1] & Hi & Hin). rewrite in_flat_map in Hin.
    destruct Hin as ([j g2] & Hj & Hp). simpl in Hp.
    destruct (Nat.eqb_spec i j) as [E|E]; simpl in Hp; [destruct Hp|].
    destruct Hp as [<-|[]]. exists i, j. simpl.
    apply In_enumerate in Hi. apply In_enumerate in Hj. auto.
  - intros (i & j & Hne & Hi & Hj). destruct p as [g1 g2]; simpl in *.
    exists (i, g1). split; [now apply In_enumerate|].
    rewrite in_flat_map. exists (j, g2). split; [now apply In_enumerate|].
    simpl. destruct (Nat.eqb_spec i j); [contradiction|]. simpl. now left.
Qed.

Lemma row_length (g : list vec2) (k i : nat) (g1 : vec2) :
  List.length
    (flat_map (fun jg2 : nat * vec2 =>
                 if negb (Nat.eqb i (fst jg2)) then [(g1, snd jg2)] else [])
       (combine (seq k (List.length g)) g))
  = (List.length g
     - (if (k <=? i)%nat && (i <? k + List.length g)%nat then 1 else 0))%nat.
Proof.
  revert k. induction g as [|a g IH]; intros k; simpl.
  - reflexivity.
  - rewrite length_app, IH.
    destruct (Nat.eqb_spec i k) as [E|Hne];
      destruct (Nat.leb_spec k i); destruct (Nat.leb_spec (S k) i);
      destruct (Nat.ltb_spec i (k + S (List.length g)));
      destruct (Nat.ltb_spec i (S k + List.length g));
      simpl; lia.
Qed.

Lemma flat_map_rows {A B : Type} (f : A -> list B) (l : list A) (c : nat) :
  (forall a, In a l -> List.length (f a) = c) ->
  List.length (flat_map f l) = (List.length l * c)%nat.
Proof.
  induction l as [|a l IH]; intros H; simpl.
  - reflexivity.
  - rewrite length_app, (H a) by (now left).
    rewrite IH; [lia|]. intros b Hb. apply H. now right.
Qed.

Lemma grid_pairs_count (grid : list vec2) :
  List.length (Registered.grid_pairs grid)
  = (List.length grid * (List.length grid - 1))%nat.
Proof.
  unfold Registered.grid_pairs.
  rewrite (flat_map_rows _ _ (List.length grid - 1)).
  - unfold Registered.enumerate.
    rewrite length_combine, length_seq. lia.
  - intros [i g1] Hin. apply In_enumerate in Hin.
    assert (Hi : (i < List.length grid)%nat)
      by (apply nth_error_Some; congruence).
    unfold Registered.enumerate. simpl. rewrite row_length.
    destruct (Nat.ltb_spec i (0 + List.length grid)); simpl; lia.
Qed.

(** X18.  The double loop over the grid lists exactly the ordered pairs of
    grid entries at two different positions, [n * (n - 1)] of them for a grid
    of [n] entries, row by row; and the grid has the four corners
    [xy_center] plus or minus the half edge lengths, so that every
    environment's grid gives twelve xy configurations. *)
Theorem grid_pairs_are_the_ordered_pairs :
  (forall (grid : list vec2) (p : vec2 * vec2),
      In p (Registered.grid_pairs grid) <->
      exists i j : nat,
        i <> j /\ nth_error grid i = Some (fst p) /\
        nth_error grid j = Some (snd p)) /\
  (forall grid : list vec2,
      List.length (Registered.grid_pairs grid)
      = (List.length grid * (List.length grid - 1))%nat) /\
  (forall a b c d : vec2,
      Registered.grid_pairs [a; b; c; d]
      = [(a, b); (a, c); (a, d); (b, a); (b, c); (b, d);
         (c, a); (c, b); (c, d); (d, a); (d, b); (d, c)]) /\
  (forall (cx cy hx hy : R),
      Registered.grid_pos (cx, cy) hx hy
      = [(cx - hx, cy - hy); (cx - hx, cy + hy);
         (cx + hx, cy - hy); (cx + hx, cy + hy)] /\
      List.length (Registered.grid_pairs (Registered.grid_pos (cx, cy) hx hy))
      = 12%nat).
Proof.
  split; [exact In_grid_pairs|]. split; [exact grid_pairs_count|].
  split; [reflexivity|].
  intros cx cy hx hy. split; [|reflexivity].
  unfold Registered.grid_pos; simpl.
  repeat (f_equal; try (f_equal; lra)).
Qed.

Lemma registry_cases (euler2quat : R -> R -> R -> Registered.quat)
    (id : string) (steps : Z) (env : Registered.BridgeEnv) :
  In (id, steps, env) (Registered.registry euler2quat) ->
  steps = 200%Z /\
  (env = Registered.PutSpoonOnTableClothInScene euler2quat
           "bridge_spoon_generated_modified" "table_cloth_generated" \/
   env = Registered.PutSpoonOnTableClothBakedTexInScene euler2quat \/
   env = Registered.PutCarrotOnPlateInScene euler2quat \/
   env = Registered.StackGreenCubeOnYellowCubeInScene
           "green_cube_3cm" "yellow_cube_3cm" \/
   env = Registered.StackGreenCubeOnYellowCubeBakedTexInScene).
Proof.
  unfold Registered.registry. simpl.
  intros [H|[H|[H|[H|[H|[]]]]]]; injection H as _ <- <-; split;
    try reflexivity; tauto.
Qed.

Lemma registered_sizes (euler2quat : R -> R -> R -> Registered.quat)
    (id : string) (steps : Z) (env : Registered.BridgeEnv) :
  In (id, steps, env) (Registered.registry euler2quat) ->
  (PutOnBridgeInSceneEnv.len (Registered.xy_configs env) = 12%Z /\
   PutOnBridgeInSceneEnv.len (Registered.quat_configs env) = 2%Z) \/
  (PutOnBridgeInSceneEnv.len (Registered.xy_configs env) = 24%Z /\
   PutOnBridgeInSceneEnv.len (Registered.quat_configs env) = 1%Z).
Proof.
  intros Hin. destruct (registry_cases _ _ _ _ Hin) as (_ & H).
  destruct H as [->|[->|[->|[->| ->]]]];
    ((left; split; reflexivity) || (right; split; reflexivity)).
Qed.

Lemma registered_far (euler2quat : R -> R -> R -> Registered.quat)
    (id : string) (steps : Z) (env : Registered.BridgeEnv)
    (p : vec2 * vec2) :
  In (id, steps, env) (Registered.registry euler2quat) ->
  In p (Registered.xy_configs env) ->
  0.1 <= norm2 (sub2 (fst p) (snd p)).
Proof.
  intros Hin Hp. destruct (registry_cases _ _ _ _ Hin) as (_ & H).
  assert (Hgrid : forall h : R, 0.05 <= h ->
    In p (Registered.grid_pairs
            (Registered.grid_pos Registered.xy_center h h)) ->
    0.1 <= norm2 (sub2 (fst p) (snd p))).
  { intros h Hh Hg.
    destruct (grid_pairs_far _ h h p ltac:(lra) ltac:(lra) Hg)
      as (_ & _ & Hfar).
    unfold Rmin in Hfar. destruct (Rle_dec h h); lra. }
  destruct H as [->|[->|[->|[->| ->]]]].
  - apply (Hgrid 0.075); [lra | exact Hp].
  - apply (Hgrid 0.075); [lra | exact Hp].
  - apply (Hgrid 0.075); [lra | exact Hp].
  - unfold Registered.StackGreenCubeOnYellowCubeBakedTexInScene,
      Registered.StackGreenCubeOnYellowCubeInScene in Hp.
    cbn [Registered.xy_configs] in Hp.
    apply in_flat_map in Hp. destruct Hp as (h & Hh & Hp).
    simpl in Hh. destruct Hh as [<-|[<-|[]]]; cbn [fst snd] in Hp.
    + apply (Hgrid 0.05); [lra | exact Hp].
    + apply (Hgrid 0.1); [lra | exact Hp].
  - unfold Registered.StackGreenCubeOnYellowCubeBakedTexInScene,
      Registered.StackGreenCubeOnYellowCubeInScene in Hp.
    cbn [Registered.xy_configs] in Hp.
    apply in_flat_map in Hp. destruct Hp as (h & Hh & Hp).
    simpl in Hh. destruct Hh as [<-|[<-|[]]]; cbn [fst snd] in Hp.
    + apply (Hgrid 0.05); [lra | exact Hp].
    + apply (Hgrid 0.1); [lra | exact Hp].
Qed.

(** X19.  Every registered environment runs at most 200 steps per episode
    and has 24 pairs of an xy configuration and a rotation configuration;
    its [reset] raises for no [options]; episode ids 24 apart select the
    same pair; and in every xy configuration the source and the target
    start at least 0.1 apart. *)
Theorem registered_environments_have_24_layouts :
  forall (euler2quat : R -> R -> R -> Registered.quat)
         (id : string) (steps : Z) (env : Registered.BridgeEnv),
    In (id, steps, env) (Registered.registry euler2quat) ->
    steps = 200%Z /\
    (PutOnBridgeInSceneEnv.len (Registered.xy_configs env)
     * PutOnBridgeInSceneEnv.len (Registered.quat_configs env) = 24)%Z /\
    (forall options,
        exists o,
          PutOnBridgeInSceneEnv.reset_options
            (Registered.source_obj_name env) (Registered.target_obj_name env)
            (Registered.xy_configs env) (Registered.quat_configs env) options
          = inr o) /\
    (forall e : Z,
        PutOnBridgeInSceneEnv.select_xy_config (Registered.xy_configs env)
          (Registered.quat_configs env) (e + 24)
        = PutOnBridgeInSceneEnv.select_xy_config (Registered.xy_configs env)
            (Registered.quat_configs env) e /\
        PutOnBridgeInSceneEnv.select_quat_config (Registered.quat_configs env)
          (e + 24)
        = PutOnBridgeInSceneEnv.select_quat_config
            (Registered.quat_configs env) e) /\
    (forall p : vec2 * vec2,
        In p (Registered.xy_configs env) ->
        0.1 <= norm2 (sub2 (fst p) (snd p))).
Proof.
  intros euler2quat id steps env Hin.
  pose proof (registered_sizes _ _ _ _ Hin) as Hsz.
  assert (H24 : (PutOnBridgeInSceneEnv.len (Registered.xy_configs env)
                 * PutOnBridgeInSceneEnv.len (Registered.quat_configs env)
                 = 24)%Z).
  { destruct Hsz as [[-> ->]|[-> ->]]; reflexivity. }
  split; [apply (registry_cases _ _ _ _ Hin)|]. split; [exact H24|].
  split; [|split].
  - intros options.
    destruct (reset_options_ok (Registered.source_obj_name env)
                (Registered.target_obj_name env)
                (Registered.xy_configs env) (Registered.quat_configs env)
                options) as (x & q & _ & _ & Hr).
    + destruct Hsz as [[-> _]|[-> _]]; lia.
    + destruct Hsz as [[_ ->]|[_ ->]]; lia.
    + eexists. exact Hr.
  - intros e.
    apply (Grid.select_congruent _ _ (e + 24)%Z e 1%Z).
    rewrite H24. lia.
  - intros p Hp. exact (registered_far _ _ _ _ p Hin Hp).
Qed.

Lemma registered_environments_have_24_layouts_witness :
  (PutOnBridgeInSceneEnv.len
     (Registered.xy_configs Registered.StackGreenCubeOnYellowCubeBakedTexInScene)
   * PutOnBridgeInSceneEnv.len
       (Registered.quat_configs
          Registered.StackGreenCubeOnYellowCubeBakedTexInScene) = 24)%Z.
Proof.
  apply (registered_environments_have_24_layouts
           (fun _ _ _ => Registered.identity_quat)
           "StackGreenCubeOnYellowCubeBakedTexInScene-v0" 200%Z
           Registered.StackGreenCubeOnYellowCubeBakedTexInScene).
  simpl. tauto.
Defined.

(** ** The footprint of the bounding-box test *)

(** X20.  The horizontal test compares norms, so the region it accepts is a
    disc around the target's centre and not the target's box: above a
    target whose xy half-lengths are both [h], a source whose centre is
    offset along x by [d] with [h < d <= 1.4 * h - 0.005], outside the box,
    still passes [xy_flag]. *)
Theorem xy_flag_accepts_outside_the_box :
  forall (s : Scene) (h d : R),
    vx (tgt_obj_half_length_bbox s) = h ->
    vy (tgt_obj_half_length_bbox s) = h ->
    xy (offset s) = (d, 0) ->
    h < d ->
    d <= 1.4 * h - 0.005 ->
    xy_flag s = true.
Proof.
  intros s h d Hx Hy Hoff Hout Hin.
  apply xy_flag_iff. rewrite Hoff, norm2_axis_x by lra.
  unfold xy. rewrite Hx, Hy.
  assert (1.4 * h <= norm2 (h, h)) by (apply le_norm2; nra).
  lra.
Qed.

Lemma xy_flag_accepts_outside_the_box_witness :
  xy_flag
    (Tabletop.scene_with_target_bbox (Vec3 0.1 0.1 0.02) (Vec3 0.26 0 0.03)
       Tabletop.cloth_settle false [])
  = true.
Proof.
  apply (xy_flag_accepts_outside_the_box _ 0.05 0.06).
  - tabletop. lra.
  - tabletop. lra.
  - tabletop. f_equal; lra.
  - lra.
  - lra.
Defined.
